(** * MMPR walk-network export scripts

    A shallow embedding of the two Python scripts

      - [scripts/generate_kista_graphology.py] ([to_graphology_json]), and
      - [scripts/generate_walk_network.py]
        ([process_network_for_javascript], [determine_area_type],
        [export_network]),

    together with the properties of the exported documents.

    Python dictionaries with string keys are [gmap string _], the set
    [edge_seen] is a [gset string], Python exceptions are [None] in the
    option monad, and the file system touched by [export_network] is an
    explicit state. *)

From Stdlib Require Import ZArith String Ascii Decimal DecimalString DecimalZ QArith.
From Stdlib Require Import SpecFloat.
From stdpp Require Import gmap strings list fin_maps option.

Set Warnings "-register-all,-clear-no-such-hyp".
Local Open Scope Z_scope.

(** ** Python values *)

(** A Python [float] is an IEEE 754 binary64 number. *)
Abbreviation float64 := spec_float (only parsing).

(** The tag values a networkx attribute dictionary holds. OSMnx stores
    strings, numbers, booleans and (after simplification) lists of them. *)
Inductive value : Type :=
| VNone
| VBool (b : bool)
| VInt (z : Z)
| VFloat (f : float64)
| VStr (s : string)
| VList (l : list value).

(** An attribute dictionary ([attrs], [data], [properties]). *)
Abbreviation Tags := (gmap string value) (only parsing).

(** [d.get(k, default)] *)
Definition get (d : Tags) (k : string) (dflt : value) : value :=
  default dflt (d !! k).

(** [v == 'literal']: a [str] is only equal to a [str]. *)
Definition eq_str (v : value) (s : string) : bool :=
  match v with
  | VStr t => String.eqb t s
  | _ => false
  end.

(** [v in [s1, s2, ...]] for a list of string literals. *)
Definition in_strs (v : value) (l : list string) : bool :=
  existsb (eq_str v) l.

Definition float_is_zero (f : float64) : bool :=
  match f with
  | S754_zero _ => true
  | _ => false
  end.

(** Truth value of an object in a condition. *)
Definition truthy (v : value) : bool :=
  match v with
  | VNone => false
  | VBool b => b
  | VInt z => negb (z =? 0)
  | VFloat f => negb (float_is_zero f)
  | VStr s => negb (String.eqb s "")
  | VList l => match l with [] => false | _ => true end
  end.

(** [str(n)] for an [int]: decimal digits, with a leading minus sign for
    negative numbers. *)
Definition str (z : Z) : string := NilZero.string_of_int (Z.to_int z).

(** [float(n)] for an [int]: the nearest binary64 (ties to even);
    [OverflowError] when it is out of range. *)
Definition float_of_int (z : Z) : option float64 :=
  match binary_normalize 53 1024 z 0 false with
  | S754_infinity _ => None
  | f => Some f
  end.

(** Monadic left fold: a [for] loop whose body may raise. *)
Fixpoint foldlM {A S : Type} (f : S → A → option S) (s : S) (l : list A)
  : option S :=
  match l with
  | [] => Some s
  | x :: l' => s' ← f s x; foldlM f s' l'
  end.

(** ** Raw graphs (networkx) *)

(** Node identifiers of an OSMnx graph are OSM ids, Python [int]s; so are
    the keys of parallel edges. *)
Abbreviation node_id := Z (only parsing).

(** [G.nodes(data=True)] and [G.edges(keys=True, data=True)] of a
    [MultiDiGraph], in iteration order. *)
Record MultiDiGraph : Type := {
  di_nodes : list (node_id * Tags);
  di_edges : list (node_id * node_id * Z * Tags)
}.

(** [G.nodes(data=True)] and [G.edges(data=True)] of a [MultiGraph], in
    iteration order: parallel edges appear once each, without their key. *)
Record MultiGraph : Type := {
  un_nodes : list (node_id * Tags);
  un_edges : list (node_id * node_id * Tags)
}.

(** ** Digits and separators in formatted identifiers *)

Definition is_digit (c : ascii) : bool :=
  (48 <=? Z.of_nat (nat_of_ascii c)) && (Z.of_nat (nat_of_ascii c) <=? 57).

Fixpoint all_digits (s : string) : bool :=
  match s with
  | EmptyString => true
  | String c s' => is_digit c && all_digits s'
  end.

(** ** File names *)

(** [os.path.join(a, b)] for a relative file name [b]. *)
Fixpoint ends_with_slash (s : string) : bool :=
  match s with
  | EmptyString => false
  | String c EmptyString => Ascii.eqb c "/"
  | String _ s' => ends_with_slash s'
  end.

Definition path_join (a b : string) : string :=
  match a with
  | EmptyString => b
  | _ => if ends_with_slash a then a +:+ b else a +:+ "/" +:+ b
  end.

(** ** Output documents *)

(** *** Graphology document (keyed-multigraph mode) *)

Record GNode : Type := {
  gn_key : string;
  gn_attributes : Tags
}.

Record GEdge : Type := {
  ge_key : string;
  ge_source : string;
  ge_target : string;
  ge_attributes : Tags
}.

Record GraphologyData : Type := {
  g_attributes : Tags;
  g_nodes : list GNode;
  g_edges : list GEdge
}.

(** *** Network document (undirected-simple mode) *)

Record Coord : Type := {
  c_lat : float64;
  c_lng : float64
}.

Record Node : Type := {
  n_id : string;
  n_lat : float64;
  n_lng : float64;
  n_properties : Tags
}.

Record Edge : Type := {
  e_id : string;
  e_from : string;
  e_to : string;
  e_coordinates : list Coord;
  e_properties : Tags
}.

Record WalkableArea : Type := {
  a_id : string;
  a_type : string;
  a_coordinates : list Coord;
  a_properties : Tags
}.

Record AdjacencyEntry : Type := {
  to : string;
  distance : value;
  edge_id : string
}.

(** The bounding box literals of the metadata block. *)
Record Bounds : Type := {
  north : Q;
  south : Q;
  east : Q;
  west : Q
}.

Record Metadata : Type := {
  area : string;
  bounds : Bounds;
  node_count : nat;
  edge_count : nat;
  generated_at : string
}.

Record NetworkDocument : Type := {
  metadata : Metadata;
  nodes : gmap string Node;
  edges : list Edge;
  walkable_areas : list WalkableArea;
  graph : gmap string (list AdjacencyEntry)
}.

(** *** Files *)

(** What [json.dump] is asked to write. *)
Inductive payload : Type :=
| JDocument (d : NetworkDocument)
| JAreas (l : list WalkableArea)
| JGraph (g : gmap string (list AdjacencyEntry)).

(** The content of a file: [Partial] after [open(path, 'w')] truncated it
    and [json.dump] stopped before the end, [Complete p] when the whole
    JSON text of [p] is in it. *)
Inductive file : Type :=
| Partial
| Complete (p : payload).

(** The environment decides which I/O steps raise. *)
Record faults : Type := {
  makedirs_fails : bool;
  open_fails : string → bool;
  dump_fails : string → bool
}.

(** The content of the Graphology file: [Truncated] after
    [open(output_path, 'w')] emptied it and nothing was written, [Torn]
    when [json.dump] stopped before the end, [Written data] when the whole
    JSON text of [data] is in it. *)
Inductive graphology_file : Type :=
| Truncated
| Torn
| Written (data : GraphologyData).

(** ** The area classifier *)

(** [determine_area_type] of [generate_walk_network.py]. *)
Definition determine_area_type (properties : Tags) : string :=
  let highway := get properties "highway" (VStr "") in
  if eq_str highway "footway" then "path"
  else if eq_str highway "pedestrian" then "path"
  else if eq_str highway "living_street" then "road"
  else if eq_str highway "residential"
          && truthy (get properties "sidewalk" VNone) then "sidewalk"
  else if in_strs highway ["primary"; "secondary"; "tertiary"]
          && truthy (get properties "sidewalk" VNone) then "sidewalk"
  else if eq_str (get properties "leisure" VNone) "park" then "plaza"
  else "path".

(** The decision table of the classifier as the specification words it:
    an ordered list of (condition, label) rules, the first matching rule
    wins, and [path] is the default. *)
Definition has_tag (k v : string) (p : Tags) : bool :=
  match p !! k with
  | Some (VStr s) => String.eqb s v
  | _ => false
  end.

Definition truthy_tag (k : string) (p : Tags) : bool :=
  match p !! k with
  | Some v => truthy v
  | None => false
  end.

Definition area_rules : list ((Tags → bool) * string) :=
  [ (has_tag "highway" "footway", "path");
    (has_tag "highway" "pedestrian", "path");
    (has_tag "highway" "living_street", "road");
    (λ p, has_tag "highway" "residential" p && truthy_tag "sidewalk" p,
     "sidewalk");
    (λ p, (has_tag "highway" "primary" p || has_tag "highway" "secondary" p
           || has_tag "highway" "tertiary" p) && truthy_tag "sidewalk" p,
     "sidewalk");
    (has_tag "leisure" "park", "plaza") ].

Fixpoint first_match (rules : list ((Tags → bool) * string))
    (dflt : string) (p : Tags) : string :=
  match rules with
  | [] => dflt
  | (cond, label) :: rules' =>
    if cond p then label else first_match rules' dflt p
  end.

Definition area_labels : list string := ["path"; "road"; "sidewalk"; "plaza"].

(** The bounding box written into the metadata: 59.415, 59.390, 17.960,
    17.920. *)
Definition kista_bounds : Bounds :=
  {| north := 59415 # 1000; south := 59390 # 1000;
     east := 17960 # 1000; west := 17920 # 1000 |}.

(** ** JSON serialisation ([json.dump], [json.load])

    Modelled from the documentation of Python's [json] module and of
    Python's data model, which are not code of this repository: the
    conversion tables of the encoder and of the decoder, and [==] on the
    objects they handle. The JSON text between the two is represented by
    its parse tree. This rests on three facts of the documentation: a
    float is written with [float.__repr__], which the parser reads back
    to the same binary64; with the default [allow_nan=True], NaN and the
    infinities are written as the tokens [NaN], [Infinity], [-Infinity],
    which the parser accepts; a str is written with its escapes and read
    back to the same str (true of a str without unpaired surrogate code
    points, such as the text of an OSM tag). The encoder raises on
    objects outside [pyobj]; the scripts pass it none. *)

(** A dictionary key. The encoder also accepts [int] keys and coerces
    them to strings. *)
Inductive pykey : Type :=
| KStr (s : string)
| KInt (z : Z).

#[global] Instance pykey_eq_dec : EqDecision pykey.
Proof. solve_decision. Defined.












(** *** The documents as Python objects *)


















(** ** Sample inputs *)

(** A [float] that rejects every string; no sample below casts one. *)
Definition reject_str : string → option float64 := λ _, None.

(** The [to_undirected] handed to the sample runs below: the node list is
    kept, and every edge keeps its endpoints and its data, in the order
    of the input, and loses its key. This is not networkx's method, which
    also merges a reciprocal pair of edges that share a key and lists the
    edges in the order of its adjacency iteration, each from the endpoint
    it meets first. The properties are proved for every [to_undirected];
    [forget_direction] only instantiates them on the samples. *)
Definition forget_direction (G : MultiDiGraph) : MultiGraph :=
  {| un_nodes := di_nodes G;
     un_edges := (λ e, (e.1.1.1, e.1.1.2, e.2)) <$> di_edges G |}.

Definition at_point (y x : Z) : Tags :=
  {[ "y" := VInt y; "x" := VInt x ]}.

(** Two intersections joined by two parallel streets, a node without
    coordinates hanging off the second, and an isolated node. *)
Definition sample_graph : MultiDiGraph :=
  {| di_nodes :=
       [ (1, at_point 59 17); (2, at_point 60 18); (3, ∅);
         (4, at_point 61 19) ];
     di_edges :=
       [ (1, 2, 0, {[ "highway" := VStr "living_street";
                      "length" := VInt 12 ]});
         (1, 2, 1, {[ "highway" := VStr "footway" ]});
         (2, 3, 0, ∅) ] |}.

(** The part of [sample_graph] whose nodes all have coordinates. *)
Definition sample_graph_with_coords : MultiDiGraph :=
  {| di_nodes := [ (1, at_point 59 17); (2, at_point 60 18) ];
     di_edges :=
       [ (1, 2, 0, {[ "highway" := VStr "living_street";
                      "length" := VInt 12 ]});
         (1, 2, 1, {[ "highway" := VStr "footway" ]}) ] |}.

(** A sequence of raw edges in which the triple (1, 2, 0) comes three
    times. *)
Definition repeated_edges : MultiDiGraph :=
  {| di_nodes := [ (1, at_point 59 17); (2, at_point 60 18) ];
     di_edges :=
       [ (1, 2, 0, ∅); (1, 2, 0, ∅); (1, 2, 1, ∅); (1, 2, 0, ∅);
         (2, 1, 0, ∅) ] |}.

Definition empty_document : NetworkDocument :=
  {| metadata :=
       {| area := "Kista, Stockholm";
          bounds := kista_bounds;
          node_count := 0;
          edge_count := 0;
          generated_at := "2024-01-01T00:00:00Z" |};
     nodes := ∅;
     edges := [];
     walkable_areas := [];
     graph := ∅ |}.

(** A graph none of whose nodes has both coordinate tags (node 1 has
    none, node 2 only [y]), with an edge whose [length] is a string that
    [reject_str] does not cast. *)
Definition uncharted_graph : MultiDiGraph :=
  {| di_nodes := [ (1, ∅); (2, {[ "y" := VInt 60 ]}) ];
     di_edges := [ (1, 2, 0, {[ "length" := VStr "long" ]}) ] |}.


(** A file system that already holds a Graphology document. *)
Definition previous_output : gmap string graphology_file :=
  {[ "/app/src/data/kista_walk_network.graphology.json"
     := Written {| g_attributes := ∅; g_nodes := []; g_edges := [] |} ]}.

(** The second [open] fails (say, [walkable_areas.json] exists and is
    read-only). *)
Definition areas_unwritable : faults :=
  {| makedirs_fails := false;
     open_fails := λ p, String.eqb p "out/walkable_areas.json";
     dump_fails := λ _, false |}.

Definition no_faults : faults :=
  {| makedirs_fails := false;
     open_fails := λ _, false;
     dump_fails := λ _, false |}.

(** ** The two pipelines *)

Section Scripts.

(** [float(s)] for a [str]: the parsed number, [None] for [ValueError]. *)
Variable float_of_str : string → option float64.

(** [G.to_undirected()] of networkx. *)
Variable to_undirected : MultiDiGraph → MultiGraph.

(** [float(v)]; [None] stands for [TypeError], [ValueError] or
    [OverflowError]. *)
Definition float (v : value) : option float64 :=
  match v with
  | VNone => None
  | VBool b => float_of_int (if b then 1 else 0)
  | VInt z => float_of_int z
  | VFloat f => Some f
  | VStr s => float_of_str s
  | VList _ => None
  end.

(** *** [generate_kista_graphology.py] *)

(** The body of the node loop: [attrs['y']] raises [KeyError] when the
    tag is missing. *)
Definition node_attrs (attrs : Tags) : option Tags :=
  y ← attrs !! "y"; lat ← float y;
  x ← attrs !! "x"; lng ← float x;
  Some {[ "lat" := VFloat lat;
          "lng" := VFloat lng;
          "highway" := get attrs "highway" (VStr "intersection");
          "name" := get attrs "name" (VStr "") ]}.

Definition graphology_node (nd : node_id * Tags) : option GNode :=
  node_attrs ← node_attrs nd.2;
  Some {| gn_key := str nd.1; gn_attributes := node_attrs |}.

Definition edge_attrs (attrs : Tags) : option Tags :=
  length ← float (get attrs "length" (VInt 0));
  Some {[ "highway" := get attrs "highway" (VStr "path");
          "length" := VFloat length;
          "surface" := get attrs "surface" (VStr "");
          "foot" := get attrs "foot" (VStr "yes") ]}.

(** [f"{base_key}-{i}"] *)
Definition suffixed (base_key : string) (i : Z) : string :=
  base_key +:+ "-" +:+ str i.

(** [f"{u}-{v}-{key}"] *)
Definition base_key_of (u v key : Z) : string :=
  str u +:+ "-" +:+ str v +:+ "-" +:+ str key.

(** The [while edge_key in edge_seen] loop, from the state
    ([edge_key], [i]); [fuel] bounds the number of iterations. *)
Fixpoint probe (fuel : nat) (edge_seen : gset string)
    (base_key edge_key : string) (i : Z) : option string :=
  if decide (edge_key ∈ edge_seen) then
    match fuel with
    | O => None
    | S fuel' => probe fuel' edge_seen base_key (suffixed base_key i) (i + 1)
    end
  else Some edge_key.

(** The loop started at [edge_key = base_key], [i = 1]. It leaves within
    [size edge_seen] iterations (lemma [unique_key_total]). *)
Definition unique_key (edge_seen : gset string) (base_key : string)
  : option string :=
  probe (size edge_seen) edge_seen base_key base_key 1.

(** The edge loop, threading [edge_seen]. *)
Fixpoint graphology_edges (edge_seen : gset string)
    (es : list (node_id * node_id * Z * Tags)) : option (list GEdge) :=
  match es with
  | [] => Some []
  | (u, v, key, attrs) :: es' =>
    edge_key ← unique_key edge_seen (base_key_of u v key);
    edge_attrs ← edge_attrs attrs;
    rest ← graphology_edges ({[edge_key]} ∪ edge_seen) es';
    Some ({| ge_key := edge_key;
             ge_source := str u;
             ge_target := str v;
             ge_attributes := edge_attrs |} :: rest)
  end.

Definition to_graphology_json (G : MultiDiGraph) : option GraphologyData :=
  nodes ← mapM graphology_node (di_nodes G);
  edges ← graphology_edges ∅ (di_edges G);
  Some {| g_attributes := ∅; g_nodes := nodes; g_edges := edges |}.

(** *** [generate_walk_network.py] *)

(** The body of the node loop. *)
Definition node_body (nodes : gmap string Node) (nd : node_id * Tags)
  : option (gmap string Node) :=
  let '(node_id, data) := nd in
  match data !! "y", data !! "x" with
  | Some y, Some x =>
    lat ← float y;
    lng ← float x;
    Some (<[str node_id :=
             {| n_id := str node_id;
                n_lat := lat;
                n_lng := lng;
                n_properties :=
                  {[ "highway" := get data "highway" (VStr "intersection");
                     "name" := get data "name" (VStr "");
                     "intersection" := get data "intersection" (VBool false) ]}
             |}]> nodes)
  | _, _ => Some nodes
  end.

Definition extract_nodes (l : list (node_id * Tags))
  : option (gmap string Node) :=
  foldlM node_body ∅ l.

(** [f"edge_{u}_{v}"] *)
Definition edge_name (u v : Z) : string :=
  "edge_" +:+ str u +:+ "_" +:+ str v.

Definition edge_properties (data : Tags) : option Tags :=
  length ← float (get data "length" (VInt 0));
  Some {[ "highway" := get data "highway" (VStr "path");
          "name" := get data "name" (VStr "");
          "length" := VFloat length;
          "width" := get data "width" VNone;
          "surface" := get data "surface" VNone;
          "lit" := get data "lit" VNone;
          "foot" := get data "foot" (VStr "yes") ]}.

(** The dictionary built for one edge; [nodes[str(u)]] raises [KeyError]
    when the key is missing. *)
Definition make_edge (nodes : gmap string Node) (u v : Z) (data : Tags)
  : option Edge :=
  nu ← nodes !! str u;
  nv ← nodes !! str v;
  properties ← edge_properties data;
  Some {| e_id := edge_name u v;
          e_from := str u;
          e_to := str v;
          e_coordinates :=
            [ {| c_lat := n_lat nu; c_lng := n_lng nu |};
              {| c_lat := n_lat nv; c_lng := n_lng nv |} ];
          e_properties := properties |}.

(** [str(u) in nodes and str(v) in nodes] *)
Definition endpoints_present (nodes : gmap string Node)
    (e : node_id * node_id * Tags) : bool :=
  bool_decide (is_Some (nodes !! str e.1.1))
  && bool_decide (is_Some (nodes !! str e.1.2)).

Fixpoint extract_edges (nodes : gmap string Node)
    (es : list (node_id * node_id * Tags)) : option (list Edge) :=
  match es with
  | [] => Some []
  | e :: es' =>
    if endpoints_present nodes e then
      edge ← make_edge nodes e.1.1 e.1.2 e.2;
      rest ← extract_edges nodes es';
      Some (edge :: rest)
    else extract_edges nodes es'
  end.

Definition walkable_area (edge : Edge) : WalkableArea :=
  {| a_id := e_id edge;
     a_type := determine_area_type (e_properties edge);
     a_coordinates := e_coordinates edge;
     a_properties := e_properties edge |}.

(** [graph[k].append(entry)]; [graph[k]] raises [KeyError] when [k] is
    missing. *)
Definition append_entry (graph : gmap string (list AdjacencyEntry))
    (k : string) (entry : AdjacencyEntry)
  : option (gmap string (list AdjacencyEntry)) :=
  l ← graph !! k;
  Some (<[k := l ++ [entry]]> graph).

(** The body of the adjacency loop. *)
Definition graph_body (graph : gmap string (list AdjacencyEntry))
    (edge : Edge) : option (gmap string (list AdjacencyEntry)) :=
  length ← e_properties edge !! "length";
  graph ← append_entry graph (e_from edge)
            {| to := e_to edge; distance := length; edge_id := e_id edge |};
  append_entry graph (e_to edge)
    {| to := e_from edge; distance := length; edge_id := e_id edge |}.

Definition build_graph (nodes : gmap string Node) (edges : list Edge)
  : option (gmap string (list AdjacencyEntry)) :=
  foldlM graph_body ((λ _, []) <$> nodes) edges.

(** Everything after [G_undirected = G.to_undirected()]. *)
Definition process_undirected (G_undirected : MultiGraph)
  : option NetworkDocument :=
  nodes ← extract_nodes (un_nodes G_undirected);
  edges ← extract_edges nodes (un_edges G_undirected);
  let walkable_areas := walkable_area <$> edges in
  graph ← build_graph nodes edges;
  Some {| metadata :=
            {| area := "Kista, Stockholm";
               bounds := kista_bounds;
               node_count := size nodes;
               edge_count := length edges;
               generated_at := "2024-01-01T00:00:00Z" |};
          nodes := nodes;
          edges := edges;
          walkable_areas := walkable_areas;
          graph := graph |}.

Definition process_network_for_javascript (G : MultiDiGraph)
  : option NetworkDocument :=
  process_undirected (to_undirected G).

(** One [with open(path, 'w') as f: json.dump(p, f, indent=2)]. *)
Definition write_json (flt : faults) (path : string) (p : payload)
    (fs : gmap string file) : gmap string file * option unit :=
  if open_fails flt path then (fs, None)
  else if dump_fails flt path then (<[path := Partial]> fs, None)
  else (<[path := Complete p]> fs, Some ()).

(** Sequencing of steps that change the file system and may raise. *)
Definition and_then (r : gmap string file * option unit)
    (k : gmap string file → gmap string file * option unit)
  : gmap string file * option unit :=
  match r.2 with
  | Some _ => k r.1
  | None => r
  end.

Definition document_path (output_dir : string) : string :=
  path_join output_dir "kista_walk_network.json".
Definition areas_path (output_dir : string) : string :=
  path_join output_dir "walkable_areas.json".
Definition graph_path (output_dir : string) : string :=
  path_join output_dir "walk_graph.json".

Definition export_network (flt : faults) (data : NetworkDocument)
    (output_dir : string) (fs : gmap string file)
  : gmap string file * option unit :=
  if makedirs_fails flt then (fs, None)
  else
    and_then (write_json flt (document_path output_dir) (JDocument data) fs)
      (λ fs,
        and_then (write_json flt (areas_path output_dir)
                    (JAreas (walkable_areas data)) fs)
          (λ fs,
            write_json flt (graph_path output_dir) (JGraph (graph data)) fs)).


(** The module body of [generate_kista_graphology.py] after the
    definition of [to_graphology_json]. [download] is the outcome of
    [ox.graph_from_point(...)], [output_path] the absolute path computed
    from [__file__]. The file is opened before the argument
    [to_graphology_json(G)] of [json.dump] is evaluated. *)
Definition kista_script (download : option MultiDiGraph) (flt : faults)
    (output_path : string) (fs : gmap string graphology_file)
  : gmap string graphology_file * option unit :=
  match download with
  | None => (fs, None)
  | Some G =>
    if makedirs_fails flt then (fs, None)
    else if open_fails flt output_path then (fs, None)
    else
      match to_graphology_json G with
      | None => (<[output_path := Truncated]> fs, None)
      | Some data =>
        if dump_fails flt output_path
        then (<[output_path := Torn]> fs, None)
        else (<[output_path := Written data]> fs, Some ())
      end
  end.

(** ** Vocabulary of the statements *)

(** The key given to the occurrence number [n] (counted from 0) of a base
    key: the base key itself, then the suffixes [-1], [-2], ... *)
Definition decorated (base_key : string) (n : nat) : string :=
  match n with
  | O => base_key
  | S _ => suffixed base_key (Z.of_nat n)
  end.

(** The (source, target, parallel-index) triple of a raw edge. *)
Definition triple_of (e : node_id * node_id * Z * Tags) : Z * Z * Z := e.1.

Definition base_of (t : Z * Z * Z) : string := base_key_of t.1.1 t.1.2 t.2.

(** How many edges of [es] carry the triple [t]. *)
Definition occurrences (t : Z * Z * Z)
    (es : list (node_id * node_id * Z * Tags)) : nat :=
  length (filter (λ e, triple_of e = t) es).

(** The keys the disambiguation is expected to hand out, edge by edge,
    after the edges [prev] have been processed. *)
Fixpoint expected_keys (prev es : list (node_id * node_id * Z * Tags))
  : list string :=
  match es with
  | [] => []
  | e :: es' =>
    decorated (base_of (triple_of e)) (occurrences (triple_of e) prev)
    :: expected_keys (prev ++ [e]) es'
  end.

(** Loop invariant of the edge loop: after the edges [prev], [edge_seen]
    holds exactly the keys handed out so far. *)
Definition seen_after (edge_seen : gset string)
    (prev : list (node_id * node_id * Z * Tags)) : Prop :=
  ∀ s, s ∈ edge_seen ↔
       ∃ t n, s = decorated (base_of t) n ∧ (n < occurrences t prev)%nat.

(** [('y' in data and 'x' in data)] *)
Definition has_coords (data : Tags) : bool :=
  bool_decide (is_Some (data !! "y")) && bool_decide (is_Some (data !! "x")).

Definition node_properties_of (data : Tags) : Tags :=
  {[ "highway" := get data "highway" (VStr "intersection");
     "name" := get data "name" (VStr "");
     "intersection" := get data "intersection" (VBool false) ]}.

(** [node] is the projection of the raw node [node_id] with tags [data]. *)
Definition projected_node (node_id : Z) (data : Tags) (node : Node) : Prop :=
  ∃ y x, data !! "y" = Some y ∧ data !! "x" = Some x
         ∧ float y = Some (n_lat node) ∧ float x = Some (n_lng node)
         ∧ n_id node = str node_id
         ∧ n_properties node = node_properties_of data.

(** The casts of the node loop do not raise on [data]. *)
Definition node_castable (data : Tags) : Prop :=
  ∀ y x, data !! "y" = Some y → data !! "x" = Some x →
         is_Some (float y) ∧ is_Some (float x).

Definition edge_properties_of (data : Tags) (length : float64) : Tags :=
  {[ "highway" := get data "highway" (VStr "path");
     "name" := get data "name" (VStr "");
     "length" := VFloat length;
     "width" := get data "width" VNone;
     "surface" := get data "surface" VNone;
     "lit" := get data "lit" VNone;
     "foot" := get data "foot" (VStr "yes") ]}.

(** [edge] is the projection of the raw edge [(u, v, data)] over the
    exported [nodes]. *)
Definition projected_edge (nodes : gmap string Node)
    (e : node_id * node_id * Tags) (edge : Edge) : Prop :=
  ∃ nu nv length,
    nodes !! str e.1.1 = Some nu ∧ nodes !! str e.1.2 = Some nv
    ∧ float (get e.2 "length" (VInt 0)) = Some length
    ∧ edge = {| e_id := edge_name e.1.1 e.1.2;
                e_from := str e.1.1;
                e_to := str e.1.2;
                e_coordinates :=
                  [ {| c_lat := n_lat nu; c_lng := n_lng nu |};
                    {| c_lat := n_lat nv; c_lng := n_lng nv |} ];
                e_properties := edge_properties_of e.2 length |}.

(** The adjacency entries an edge contributes to the list of node [k]. *)
Definition entries_at (k : string) (edge : Edge) : list AdjacencyEntry :=
  let d := default VNone (e_properties edge !! "length") in
  (if decide (e_from edge = k)
   then [ {| to := e_to edge; distance := d; edge_id := e_id edge |} ]
   else [])
  ++ (if decide (e_to edge = k)
      then [ {| to := e_from edge; distance := d; edge_id := e_id edge |} ]
      else []).

Definition adjacency_of (k : string) (edges : list Edge)
  : list AdjacencyEntry :=
  edges ≫= entries_at k.

(** The number of adjacency entries in the whole mapping. *)
Definition entry_count (graph : gmap string (list AdjacencyEntry)) : nat :=
  map_fold (λ _ l n, (length l + n)%nat) 0%nat graph.

(** The three writes of [export_network], in program order. *)
Definition export_plan (data : NetworkDocument) (output_dir : string)
  : list (string * payload) :=
  [ (document_path output_dir, JDocument data);
    (areas_path output_dir, JAreas (walkable_areas data));
    (graph_path output_dir, JGraph (graph data)) ].

(** The file system after the writes [l] have all completed. *)
Definition completed (fs : gmap string file) (l : list (string * payload))
  : gmap string file :=
  foldl (λ fs pc, <[pc.1 := Complete pc.2]> fs) fs l.

(** Neither [open] nor [json.dump] raises on any of the writes [l]. *)
Definition steps_ok (flt : faults) (l : list (string * payload)) : Prop :=
  ∀ pc, pc ∈ l → open_fails flt pc.1 = false ∧ dump_fails flt pc.1 = false.

(** No I/O step of the export raises. *)
Definition fault_free (flt : faults) (data : NetworkDocument)
    (output_dir : string) : Prop :=
  makedirs_fails flt = false
  ∧ ∀ pc, pc ∈ export_plan data output_dir →
      open_fails flt pc.1 = false ∧ dump_fails flt pc.1 = false.

(** The raw node [n] is exported: some entry of the node list carries it
    with both coordinate tags. *)
Definition kept (l : list (node_id * Tags)) (n : Z) : Prop :=
  ∃ data, (n, data) ∈ l ∧ has_coords data = true.

#[global] Instance kept_dec (l : list (node_id * Tags)) (n : Z) :
  Decision (kept l n).
Proof.
  refine (cast_if
            (decide (Exists (λ nd, nd.1 = n ∧ has_coords nd.2 = true) l)));
    unfold kept.
  - apply list.Exists_exists in e as ([n' data] & Hin & E & Hc).
    simpl in *. subst n'. by exists data.
  - intros (data & Hin & Hc). apply n0, list.Exists_exists.
    by exists (n, data).
Defined.

(** [float(data.get('length', 0))] does not raise. *)
Definition length_castable (data : Tags) : Prop :=
  is_Some (float (get data "length" (VInt 0))).

(** The node loop of [to_graphology_json] does not raise on [attrs]. *)
Definition coords_castable (attrs : Tags) : Prop :=
  ∃ y x, attrs !! "y" = Some y ∧ attrs !! "x" = Some x
         ∧ is_Some (float y) ∧ is_Some (float x).

(** * Properties *)

(** ** Formatting integers *)

Lemma append_cons (x : ascii) (a b : string) :
  String x a +:+ b = String x (a +:+ b).
Proof. reflexivity. Qed.

Lemma append_nil (b : string) : EmptyString +:+ b = b.
Proof. reflexivity. Qed.

Ltac norm_append :=
  repeat (rewrite append_cons in * || rewrite append_nil in * ).

Lemma all_digits_uint (d : uint) :
  all_digits (NilEmpty.string_of_uint d) = true.
Proof. induction d; simpl; auto. Qed.

Lemma str_uint_digits (d : uint) :
  all_digits (NilZero.string_of_uint d) = true
  ∧ NilZero.string_of_uint d ≠ EmptyString.
Proof.
  destruct d; simpl; rewrite ?all_digits_uint; split; auto; discriminate.
Qed.

(** [str z] is a nonempty run of digits, after a minus sign when [z] is
    negative. *)
Lemma str_cases (z : Z) :
  ∃ ds, all_digits ds = true ∧ ds ≠ EmptyString
        ∧ (str z = ds ∨ str z = String "-" ds).
Proof.
  unfold str. destruct (Z.to_int z) as [d|d]; simpl;
    exists (NilZero.string_of_uint d);
    destruct (str_uint_digits d); auto.
Qed.

Lemma str_inj (z z' : Z) : str z = str z' → z = z'.
Proof.
  unfold str. intros H. apply DecimalZ.to_int_inj.
  assert (Hnn : ∀ n, Z.to_int n ≠ Pos Nil ∧ Z.to_int n ≠ Neg Nil).
  { intros [|p|p]; simpl; split; try discriminate;
      intros [= E]; by apply DecimalPos.Unsigned.to_uint_nonnil in E. }
  destruct (Hnn z), (Hnn z').
  assert (E : NilZero.int_of_string (NilZero.string_of_int (Z.to_int z))
              = NilZero.int_of_string (NilZero.string_of_int (Z.to_int z')))
    by (by rewrite H).
  rewrite !NilZero.isi in E by done. congruence.
Qed.

Lemma digits_split (a a' : string) (c c' : ascii) (t t' : string) :
  all_digits a = true → all_digits a' = true →
  is_digit c = false → is_digit c' = false →
  a +:+ String c t = a' +:+ String c' t' →
  a = a' ∧ c = c' ∧ t = t'.
Proof.
  revert a'. induction a as [|x a IH]; intros [|x' a']; simpl;
    intros Ha Ha' Hc Hc' E.
  - by injection E as -> ->.
  - injection E as -> _. apply andb_prop in Ha' as [Hx _]. congruence.
  - injection E as -> _. apply andb_prop in Ha as [Hx _]. congruence.
  - injection E as -> E.
    apply andb_prop in Ha as [_ Ha]. apply andb_prop in Ha' as [_ Ha'].
    destruct (IH a' Ha Ha' Hc Hc' E) as (-> & -> & ->). done.
Qed.

Lemma digits_no_sep (a a' : string) (c : ascii) (t : string) :
  all_digits a' = true → is_digit c = false → a +:+ String c t ≠ a'.
Proof.
  revert a'. induction a as [|x a IH]; intros [|x' a']; simpl;
    intros Ha' Hc E; try discriminate.
  - injection E as -> _. apply andb_prop in Ha' as [Hx _]. congruence.
  - injection E as -> E. apply andb_prop in Ha' as [_ Ha']. by eapply IH.
Qed.

Lemma digits_not_minus (ds t t' : string) :
  all_digits ds = true → ds ≠ EmptyString → ds +:+ t ≠ String "-" t'.
Proof.
  destruct ds as [|x ds]; simpl; [done|].
  intros H _ [= -> _]. by apply andb_prop in H as [H _].
Qed.

(** A formatted integer followed by a separator determines the integer,
    the separator and the rest. *)
Lemma str_sep_inj (u u' : Z) (c c' : ascii) (t t' : string) :
  is_digit c = false → is_digit c' = false →
  str u +:+ String c t = str u' +:+ String c' t' →
  u = u' ∧ c = c' ∧ t = t'.
Proof.
  intros Hc Hc' E.
  destruct (str_cases u) as (ds & Hd & Hne & Hu).
  destruct (str_cases u') as (ds' & Hd' & Hne' & Hu').
  assert (ds = ds' ∧ str u = str u' ∧ c = c' ∧ t = t') as (_ & Hs & -> & ->).
  { destruct Hu as [Hu|Hu], Hu' as [Hu'|Hu']; rewrite Hu, Hu' in E |- *;
      simpl in E.
    - destruct (digits_split _ _ _ _ _ _ Hd Hd' Hc Hc' E) as (-> & -> & ->).
      done.
    - by apply digits_not_minus in E.
    - symmetry in E. by apply digits_not_minus in E.
    - injection E as E.
      destruct (digits_split _ _ _ _ _ _ Hd Hd' Hc Hc' E) as (-> & -> & ->).
      done. }
  split; [by apply str_inj | done].
Qed.

(** A formatted integer contains no separator after its first character. *)
Lemma str_sep_end (u u' : Z) (c : ascii) (t : string) :
  is_digit c = false → str u +:+ String c t ≠ str u'.
Proof.
  intros Hc E.
  destruct (str_cases u) as (ds & Hd & Hne & Hu).
  destruct (str_cases u') as (ds' & Hd' & Hne' & Hu').
  destruct Hu as [Hu|Hu], Hu' as [Hu'|Hu']; rewrite Hu, Hu' in E; simpl in E.
  - by eapply digits_no_sep.
  - by apply digits_not_minus in E.
  - destruct ds' as [|x ds']; [done|]. simpl in Hd'.
    injection E as <- _. by apply andb_prop in Hd' as [? _].
  - injection E as E. by eapply digits_no_sep.
Qed.

Lemma append_assoc (a b c : string) : (a +:+ b) +:+ c = a +:+ (b +:+ c).
Proof. induction a as [|x a IH]; norm_append; [done|by rewrite IH]. Qed.

Lemma append_inj_l (a b c : string) : a +:+ b = a +:+ c → b = c.
Proof. induction a; norm_append; [done|]. intros [= E]. auto. Qed.

Lemma append_length (a b : string) :
  String.length (a +:+ b) = (String.length a + String.length b)%nat.
Proof. induction a as [|x a IH]; norm_append; simpl; [done|by rewrite IH]. Qed.

Lemma append_ne_self (a : string) (c : ascii) (t : string) :
  a +:+ String c t ≠ a.
Proof.
  intros E. apply (f_equal String.length) in E.
  rewrite append_length in E. simpl in E. lia.
Qed.

(** ** Edge identifiers are injective *)

Lemma base_key_of_inj (u v k u' v' k' : Z) :
  base_key_of u v k = base_key_of u' v' k' → u = u' ∧ v = v' ∧ k = k'.
Proof.
  unfold base_key_of. simpl. intros E.
  apply str_sep_inj in E as (-> & _ & E); [|done..].
  apply str_sep_inj in E as (-> & _ & E); [|done..].
  by apply str_inj in E as ->.
Qed.

Lemma base_of_inj (t t' : Z * Z * Z) : base_of t = base_of t' → t = t'.
Proof.
  destruct t as [[u v] k], t' as [[u' v'] k']. unfold base_of. simpl.
  intros E. by apply base_key_of_inj in E as (-> & -> & ->).
Qed.

Lemma suffixed_base_of (t : Z * Z * Z) (i : Z) :
  suffixed (base_of t) i
  = str t.1.1 +:+ String "-" (str t.1.2 +:+ String "-"
      (str t.2 +:+ String "-" (str i))).
Proof.
  unfold suffixed, base_of, base_key_of.
  by rewrite !append_assoc.
Qed.

Lemma suffixed_inj (t t' : Z * Z * Z) (i i' : Z) :
  suffixed (base_of t) i = suffixed (base_of t') i' → t = t' ∧ i = i'.
Proof.
  rewrite !suffixed_base_of. destruct t as [[u v] k], t' as [[u' v'] k'].
  simpl. intros E.
  apply str_sep_inj in E as (-> & _ & E); [|done..].
  apply str_sep_inj in E as (-> & _ & E); [|done..].
  apply str_sep_inj in E as (-> & _ & E); [|done..].
  by apply str_inj in E as ->.
Qed.

Lemma suffixed_ne_base (t t' : Z * Z * Z) (i : Z) :
  suffixed (base_of t) i ≠ base_of t'.
Proof.
  rewrite suffixed_base_of. destruct t as [[u v] k], t' as [[u' v'] k'].
  unfold base_of, base_key_of. simpl. intros E.
  apply str_sep_inj in E as (-> & _ & E); [|done..].
  apply str_sep_inj in E as (-> & _ & E); [|done..].
  by apply str_sep_end in E.
Qed.

(** Distinct (triple, occurrence number) pairs get distinct keys. *)
Lemma decorated_inj (t t' : Z * Z * Z) (n n' : nat) :
  decorated (base_of t) n = decorated (base_of t') n' → t = t' ∧ n = n'.
Proof.
  destruct n as [|n], n' as [|n']; simpl; intros E.
  - by apply base_of_inj in E.
  - symmetry in E. by apply suffixed_ne_base in E.
  - by apply suffixed_ne_base in E.
  - apply suffixed_inj in E as [-> E]. split; [done|lia].
Qed.

(** For any base key at all, the candidates of the loop are pairwise
    distinct. *)
Lemma decorated_inj_n (base_key : string) (n n' : nat) :
  decorated base_key n = decorated base_key n' → n = n'.
Proof.
  destruct n as [|n], n' as [|n']; unfold decorated, suffixed; intros E.
  - done.
  - symmetry in E. by apply append_ne_self in E.
  - by apply append_ne_self in E.
  - apply append_inj_l in E. simpl in E. injection E as E.
    apply str_inj in E. lia.
Qed.

Lemma edge_name_inj (u v u' v' : Z) :
  edge_name u v = edge_name u' v' → u = u' ∧ v = v'.
Proof.
  unfold edge_name. simpl. intros [= E].
  apply str_sep_inj in E as (-> & _ & E); [|done..].
  by apply str_inj in E as ->.
Qed.

(** ** The disambiguation loop *)

Lemma decorated_S (base_key : string) (j : nat) :
  decorated base_key (S j) = suffixed base_key (Z.of_nat j + 1).
Proof. unfold decorated. f_equal. lia. Qed.

(** Started at candidate [j], the loop stops at the first candidate [n]
    that is not in [edge_seen], provided it has the fuel to get there. *)
Lemma probe_first (fuel : nat) (edge_seen : gset string) (base_key : string)
    (j n : nat) :
  (j ≤ n)%nat → (n - j ≤ fuel)%nat →
  (∀ k, (j ≤ k < n)%nat → decorated base_key k ∈ edge_seen) →
  decorated base_key n ∉ edge_seen →
  probe fuel edge_seen base_key (decorated base_key j) (Z.of_nat j + 1)
  = Some (decorated base_key n).
Proof.
  revert j. induction fuel as [|fuel IH]; intros j Hjn Hf Hin Hout.
  - assert (j = n) as -> by lia. simpl. by rewrite decide_False.
  - destruct (decide (j = n)) as [->|Hne]; simpl.
    + by rewrite decide_False.
    + rewrite decide_True by (apply Hin; lia).
      rewrite <- decorated_S.
      replace (Z.of_nat j + 1 + 1) with (Z.of_nat (S j) + 1) by lia.
      apply IH; [lia|lia| |done]. intros k Hk. apply Hin. lia.
Qed.

(** Pigeonhole: among the first [size edge_seen + 1] candidates one is
    free. *)
Lemma free_candidate (edge_seen : gset string) (base_key : string) :
  ∃ n, (n ≤ size edge_seen)%nat ∧ decorated base_key n ∉ edge_seen.
Proof.
  set (cands := decorated base_key <$> seq 0 (S (size edge_seen))).
  destruct (decide (Forall (λ s, s ∈ edge_seen) cands)) as [Hall|Hex].
  - exfalso.
    assert (Hnd : NoDup cands).
    { apply NoDup_fmap_2; [|apply NoDup_seq].
      intros k k'. apply decorated_inj_n. }
    assert (Hsub : (list_to_set cands : gset string) ⊆ edge_seen).
    { intros x Hx. apply elem_of_list_to_set in Hx.
      rewrite Forall_forall in Hall. by apply Hall, list_elem_of_In. }
    apply subseteq_size in Hsub.
    rewrite size_list_to_set in Hsub by done.
    unfold cands in Hsub. rewrite length_fmap, length_seq in Hsub. lia.
  - apply not_Forall_Exists in Hex; [|intros x; apply _].
    apply Exists_exists in Hex as (s & Hs & Hout).
    apply list_elem_of_In, list_elem_of_fmap in Hs as (k & -> & Hk).
    apply elem_of_seq in Hk. exists k. split; [lia|done].
Qed.

Lemma least_free (edge_seen : gset string) (base_key : string) (m : nat) :
  decorated base_key m ∉ edge_seen →
  ∃ n, (n ≤ m)%nat ∧ (decorated base_key n ∉ edge_seen)
       ∧ (∀ k, (k < n)%nat → decorated base_key k ∈ edge_seen).
Proof.
  induction m as [m IH] using lt_wf_ind. intros Hm.
  destruct (decide (Forall (λ k, decorated base_key k ∈ edge_seen) (seq 0 m)))
    as [Hall|Hex].
  - exists m. split; [lia|]. split; [done|]. intros k Hk.
    rewrite Forall_forall in Hall. apply Hall, list_elem_of_In, elem_of_seq.
    lia.
  - apply not_Forall_Exists in Hex; [|intros x; apply _].
    apply Exists_exists in Hex as (k & Hk & Hout).
    apply list_elem_of_In, elem_of_seq in Hk.
    destruct (IH k ltac:(lia) Hout) as (n & Hn & Hfree & Hbelow).
    exists n. split; [lia|done].
Qed.

(** The loop always ends, on the first free candidate. *)
Lemma unique_key_total (edge_seen : gset string) (base_key : string) :
  ∃ n, unique_key edge_seen base_key = Some (decorated base_key n)
       ∧ (decorated base_key n ∉ edge_seen)
       ∧ (∀ k, (k < n)%nat → decorated base_key k ∈ edge_seen).
Proof.
  destruct (free_candidate edge_seen base_key) as (m & Hm & Hfree).
  destruct (least_free edge_seen base_key m Hfree) as (n & Hn & Hout & Hin).
  exists n. split; [|done].
  unfold unique_key.
  change (probe (size edge_seen) edge_seen base_key
            (decorated base_key 0) (Z.of_nat 0 + 1)
          = Some (decorated base_key n)).
  apply probe_first; [lia|lia| |done]. intros k Hk. apply Hin. lia.
Qed.

(** ** Keys of the Graphology document *)

Lemma occurrences_snoc (t : Z * Z * Z)
    (prev : list (node_id * node_id * Z * Tags))
    (e : node_id * node_id * Z * Tags) :
  occurrences t (prev ++ [e])
  = (occurrences t prev + (if decide (triple_of e = t) then 1 else 0))%nat.
Proof.
  unfold occurrences. rewrite list.filter_app, length_app. f_equal.
  rewrite filter_cons, filter_nil. by case_decide.
Qed.

Lemma seen_after_nil : seen_after ∅ [].
Proof.
  intros s. split; [set_solver|].
  intros (t & n & _ & Hn). unfold occurrences in Hn. simpl in Hn. lia.
Qed.

Lemma seen_after_next (edge_seen : gset string)
    (prev : list (node_id * node_id * Z * Tags))
    (e : node_id * node_id * Z * Tags) (n : nat) :
  seen_after edge_seen prev →
  decorated (base_of (triple_of e)) n ∉ edge_seen →
  (∀ k, (k < n)%nat → decorated (base_of (triple_of e)) k ∈ edge_seen) →
  n = occurrences (triple_of e) prev
  ∧ seen_after ({[decorated (base_of (triple_of e)) n]} ∪ edge_seen)
      (prev ++ [e]).
Proof.
  intros Hinv Hout Hin.
  assert (Hn : n = occurrences (triple_of e) prev).
  { destruct (Nat.lt_trichotomy n (occurrences (triple_of e) prev))
      as [Hlt|[Heq|Hgt]]; [|done|].
    - exfalso. apply Hout, Hinv. eauto.
    - exfalso. apply Hin, Hinv in Hgt as (t & k & E & Hk).
      apply decorated_inj in E as [<- <-]. lia. }
  split; [done|]. subst n. intros s. rewrite elem_of_union, elem_of_singleton.
  split.
  - intros [->|Hs].
    + exists (triple_of e), (occurrences (triple_of e) prev). split; [done|].
      rewrite occurrences_snoc, decide_True by done. lia.
    + apply Hinv in Hs as (t & k & -> & Hk). exists t, k. split; [done|].
      rewrite occurrences_snoc. lia.
  - intros (t & k & -> & Hk). rewrite occurrences_snoc in Hk.
    case_decide as Ht.
    + subst t. destruct (decide (k = occurrences (triple_of e) prev)) as [->|].
      * by left.
      * right. apply Hinv. exists (triple_of e), k. split; [done|lia].
    + right. apply Hinv. exists t, k. split; [done|lia].
Qed.

Lemma graphology_edges_keys (edge_seen : gset string)
    (prev es : list (node_id * node_id * Z * Tags)) (out : list GEdge) :
  seen_after edge_seen prev →
  graphology_edges edge_seen es = Some out →
  ge_key <$> out = expected_keys prev es.
Proof.
  revert edge_seen prev out.
  induction es as [|[[[u v] key] attrs] es IH]; intros edge_seen prev out Hinv.
  - by intros [= <-].
  - simpl. set (e := (u, v, key, attrs)).
    destruct (unique_key_total edge_seen (base_key_of u v key))
      as (n & -> & Hout & Hin).
    simpl. destruct (edge_attrs attrs) as [ea|]; [simpl|done].
    destruct (seen_after_next edge_seen prev e n Hinv Hout Hin) as [Hn Hinv'].
    destruct (graphology_edges _ es) as [rest|] eqn:Hrest; [simpl|done].
    intros [= <-]. simpl. f_equal.
    + by rewrite Hn.
    + by eapply IH.
Qed.

Lemma graphology_edges_total (edge_seen : gset string)
    (es : list (node_id * node_id * Z * Tags)) :
  Forall (λ e, is_Some (edge_attrs e.2)) es →
  is_Some (graphology_edges edge_seen es).
Proof.
  revert edge_seen. induction es as [|[[[u v] key] attrs] es IH];
    intros edge_seen Hall; [by eexists|].
  apply list.Forall_cons in Hall as [[ea Hea] Hall]. simpl in *.
  destruct (unique_key_total edge_seen (base_key_of u v key))
    as (n & -> & _). simpl. rewrite Hea. simpl.
  destruct (IH ({[decorated (base_key_of u v key) n]} ∪ edge_seen) Hall)
    as [rest ->]. by eexists.
Qed.

(** Every key is fresh when it is chosen, whatever the base keys are. *)
Lemma graphology_edges_fresh (edge_seen : gset string)
    (es : list (node_id * node_id * Z * Tags)) (out : list GEdge) :
  graphology_edges edge_seen es = Some out →
  NoDup (ge_key <$> out) ∧ ∀ k, k ∈ ge_key <$> out → k ∉ edge_seen.
Proof.
  revert edge_seen out.
  induction es as [|[[[u v] key] attrs] es IH]; intros edge_seen out.
  - intros [= <-]. split; [constructor|]. intros k Hk. by apply elem_of_nil in Hk.
  - simpl.
    destruct (unique_key_total edge_seen (base_key_of u v key))
      as (n & -> & Hout & _).
    simpl. destruct (edge_attrs attrs) as [ea|]; [simpl|done].
    destruct (graphology_edges _ es) as [rest|] eqn:Hrest; [simpl|done].
    intros [= <-]. simpl. destruct (IH _ _ Hrest) as [Hnd Hfresh].
    split.
    + constructor; [|done]. intros Hk. apply Hfresh in Hk. set_solver.
    + intros k Hk. apply elem_of_cons in Hk as [->|Hk]; [done|].
      apply Hfresh in Hk. set_solver.
Qed.

Lemma expected_keys_lookup (prev es : list (node_id * node_id * Z * Tags))
    (j : nat) (e : node_id * node_id * Z * Tags) :
  es !! j = Some e →
  expected_keys prev es !! j
  = Some (decorated (base_of (triple_of e))
            (occurrences (triple_of e) (prev ++ take j es))).
Proof.
  revert prev j. induction es as [|e' es IH]; intros prev j; [done|].
  destruct j as [|j]; simpl.
  - intros [= ->]. by rewrite app_nil_r.
  - intros Hj. rewrite (IH _ _ Hj). by rewrite <- app_assoc.
Qed.

(** The edge part of [to_graphology_json] never fails by itself: only the
    [float] casts of the projections can raise. *)
Lemma to_graphology_json_total (G : MultiDiGraph) :
  Forall (λ nd, is_Some (node_attrs nd.2)) (di_nodes G) →
  Forall (λ e, is_Some (edge_attrs e.2)) (di_edges G) →
  is_Some (to_graphology_json G).
Proof.
  intros Hn He. unfold to_graphology_json.
  assert (is_Some (mapM graphology_node (di_nodes G))) as [ns ->].
  { apply mapM_is_Some. eapply list.Forall_impl; [exact Hn|].
    intros [n a] [na Hna]. unfold graphology_node. simpl in *.
    rewrite Hna. by eexists. }
  destruct (graphology_edges_total ∅ _ He) as [es ->]. by eexists.
Qed.

Lemma to_graphology_json_edges (G : MultiDiGraph) (data : GraphologyData) :
  to_graphology_json G = Some data →
  graphology_edges ∅ (di_edges G) = Some (g_edges data).
Proof.
  unfold to_graphology_json. intros H.
  destruct (mapM graphology_node (di_nodes G)) as [ns|]; [simpl in H|done].
  destruct (graphology_edges ∅ (di_edges G)) as [es|]; [simpl in H|done].
  by injection H as <-.
Qed.

Lemma to_graphology_json_NoDup (G : MultiDiGraph) (data : GraphologyData) :
  to_graphology_json G = Some data → NoDup (ge_key <$> g_edges data).
Proof.
  intros H. apply to_graphology_json_edges in H.
  by apply graphology_edges_fresh in H as [H _].
Qed.

(** C3. In keyed-multigraph mode the loop ends for every sequence of raw
    edges and hands out pairwise distinct keys: the edge at position [j]
    gets its base key ["{source}-{target}-{index}"] when no earlier edge
    has the same (source, target, index), and the base key with the suffix
    [-n] when [n > 0] earlier edges have it; so the occurrences of one
    base key receive the base key, then [-1], [-2], ... in order. *)
Theorem disambiguated_keys (G : MultiDiGraph) :
  Forall (λ nd, is_Some (node_attrs nd.2)) (di_nodes G) →
  Forall (λ e, is_Some (edge_attrs e.2)) (di_edges G) →
  ∃ data,
    to_graphology_json G = Some data
    ∧ NoDup (ge_key <$> g_edges data)
    ∧ length (g_edges data) = length (di_edges G)
    ∧ ∀ j e, di_edges G !! j = Some e →
        (ge_key <$> g_edges data) !! j
        = Some (decorated (base_key_of e.1.1.1 e.1.1.2 e.1.2)
                  (occurrences (triple_of e) (take j (di_edges G)))).
Proof.
  intros Hn He.
  destruct (to_graphology_json_total G Hn He) as [data Hdata].
  exists data. split; [done|]. split; [by eapply to_graphology_json_NoDup|].
  pose proof (to_graphology_json_edges _ _ Hdata) as Hedges.
  pose proof (graphology_edges_keys _ _ _ _ seen_after_nil Hedges) as Hkeys.
  split.
  - rewrite <- (length_fmap ge_key), Hkeys.
    clear. generalize (@nil (node_id * node_id * Z * Tags)).
    induction (di_edges G) as [|e es IH]; intros prev; simpl; [done|].
    by rewrite IH.
  - intros j e Hj. rewrite Hkeys.
    by rewrite (expected_keys_lookup _ _ _ _ Hj).
Qed.

(** ** The node mapping of the network document *)

Lemma NoDup_fst_functional {A B : Type} (l : list (A * B)) (x : A)
    (y1 y2 : B) :
  NoDup l.*1 → (x, y1) ∈ l → (x, y2) ∈ l → y1 = y2.
Proof.
  induction l as [|[a b] l IH]; simpl; intros Hnd H1 H2.
  - by apply elem_of_nil in H1.
  - apply list.NoDup_cons in Hnd as [Hfresh Hnd].
    apply elem_of_cons in H1 as [E1|H1];
      apply elem_of_cons in H2 as [E2|H2]; simplify_eq; auto.
    + exfalso. apply Hfresh, list_elem_of_fmap. by exists (a, y2).
    + exfalso. apply Hfresh, list_elem_of_fmap. by exists (a, y1).
Qed.

Lemma has_coords_true (data : Tags) :
  has_coords data = true ↔ is_Some (data !! "y") ∧ is_Some (data !! "x").
Proof.
  unfold has_coords. rewrite andb_true_iff, !bool_decide_eq_true. done.
Qed.

Lemma projected_node_coords (n : Z) (data : Tags) (node : Node) :
  projected_node n data node → has_coords data = true.
Proof.
  intros (y & x & Hy & Hx & _). apply has_coords_true.
  rewrite Hy, Hx. split; by eexists.
Qed.

Lemma node_body_Some (nodes nodes' : gmap string Node) (nd : node_id * Tags) :
  node_body nodes nd = Some nodes' →
  (has_coords nd.2 = false ∧ nodes' = nodes)
  ∨ (∃ node, projected_node nd.1 nd.2 node
             ∧ nodes' = <[str nd.1 := node]> nodes).
Proof.
  destruct nd as [n data]. unfold node_body, has_coords. simpl.
  destruct (data !! "y") as [y|] eqn:Hy; [|intros [= <-]; by left].
  destruct (data !! "x") as [x|] eqn:Hx;
    [|intros [= <-]; left; rewrite andb_false_r; done].
  destruct (float y) as [lat|] eqn:Hlat; [simpl|done].
  destruct (float x) as [lng|] eqn:Hlng; [simpl|done].
  intros [= <-]. right. eexists. split; [|done].
  exists y, x. simpl. done.
Qed.

Lemma node_body_total (nodes : gmap string Node) (nd : node_id * Tags) :
  node_castable nd.2 → is_Some (node_body nodes nd).
Proof.
  destruct nd as [n data]. unfold node_body, node_castable. simpl. intros Hc.
  destruct (data !! "y") as [y|]; [|by eexists].
  destruct (data !! "x") as [x|]; [|by eexists].
  destruct (Hc y x eq_refl eq_refl) as [[lat ->] [lng ->]]. by eexists.
Qed.

Lemma extract_nodes_total (nodes0 : gmap string Node)
    (l : list (node_id * Tags)) :
  Forall (λ nd, node_castable nd.2) l → is_Some (foldlM node_body nodes0 l).
Proof.
  revert nodes0. induction l as [|nd l IH]; intros nodes0 Hall; [by eexists|].
  apply list.Forall_cons in Hall as [Hnd Hall]. simpl.
  destruct (node_body_total nodes0 nd Hnd) as [nodes1 ->]. simpl. by apply IH.
Qed.

(** Every exported node is the projection of a raw node with both
    coordinate tags. *)
Lemma extract_nodes_lookup (nodes0 nodes : gmap string Node)
    (l : list (node_id * Tags)) (k : string) (node : Node) :
  foldlM node_body nodes0 l = Some nodes →
  nodes !! k = Some node →
  nodes0 !! k = Some node
  ∨ ∃ n data, (n, data) ∈ l ∧ k = str n ∧ projected_node n data node.
Proof.
  revert nodes0. induction l as [|nd l IH]; intros nodes0; simpl.
  - intros [= <-]. by left.
  - destruct (node_body nodes0 nd) as [nodes1|] eqn:Hbody; [simpl|done].
    intros Hrest Hk. destruct (IH _ Hrest Hk) as [H1|(n & data & Hin & Hp)].
    + apply node_body_Some in Hbody as [[_ ->]|(node' & Hproj & ->)].
      * by left.
      * destruct (decide (str nd.1 = k)) as [<-|Hne].
        -- rewrite lookup_insert_eq in H1. injection H1 as ->.
           right. exists nd.1, nd.2. split; [|done].
           destruct nd. apply elem_of_cons. by left.
        -- rewrite lookup_insert_ne in H1 by done. by left.
    + right. exists n, data. split; [|done]. apply elem_of_cons. by right.
Qed.

(** A key no raw node formats to is left as it was. *)
Lemma extract_nodes_other (nodes0 nodes : gmap string Node)
    (l : list (node_id * Tags)) (k : string) :
  foldlM node_body nodes0 l = Some nodes →
  (∀ nd, nd ∈ l → str nd.1 ≠ k) →
  nodes !! k = nodes0 !! k.
Proof.
  revert nodes0. induction l as [|nd l IH]; intros nodes0; simpl.
  - by intros [= <-].
  - destruct (node_body nodes0 nd) as [nodes1|] eqn:Hbody; [simpl|done].
    intros Hrest Hne. rewrite (IH _ Hrest).
    + apply node_body_Some in Hbody as [[_ ->]|(node' & _ & ->)]; [done|].
      apply lookup_insert_ne, Hne, elem_of_cons. by left.
    + intros nd' Hin. apply Hne, elem_of_cons. by right.
Qed.

(** With the node identifiers of a graph (pairwise distinct), every raw
    node with both coordinate tags is exported under [str(node_id)]. *)
Lemma extract_nodes_present (nodes0 nodes : gmap string Node)
    (l : list (node_id * Tags)) (n : Z) (data : Tags) :
  NoDup l.*1 →
  foldlM node_body nodes0 l = Some nodes →
  (n, data) ∈ l → has_coords data = true →
  ∃ node, nodes !! str n = Some node ∧ projected_node n data node.
Proof.
  revert nodes0. induction l as [|nd l IH]; intros nodes0 Hnd; simpl.
  - intros _ Hin. by apply elem_of_nil in Hin.
  - apply list.NoDup_cons in Hnd as [Hfresh Hnd].
    destruct (node_body nodes0 nd) as [nodes1|] eqn:Hbody; [simpl|done].
    intros Hrest Hin Hc. apply elem_of_cons in Hin as [<-|Hin].
    + apply node_body_Some in Hbody as [[Hno _]|(node & Hproj & ->)];
        simpl in *; [congruence|].
      exists node. split; [|done].
      rewrite (extract_nodes_other _ _ _ _ Hrest).
      * apply lookup_insert_eq.
      * intros nd' Hin' E. apply str_inj in E. apply Hfresh.
        apply list_elem_of_fmap. by exists nd'.
    + by eapply IH.
Qed.

(** A raw node without both coordinate tags is not exported. *)
Lemma extract_nodes_absent (nodes : gmap string Node)
    (l : list (node_id * Tags)) (n : Z) (data : Tags) :
  NoDup l.*1 →
  foldlM node_body ∅ l = Some nodes →
  (n, data) ∈ l → has_coords data = false →
  nodes !! str n = None.
Proof.
  intros Hnd Hrun Hin Hno.
  destruct (nodes !! str n) as [node|] eqn:Hlook; [exfalso|done].
  destruct (extract_nodes_lookup _ _ _ _ _ Hrun Hlook)
    as [H0|(n' & data' & Hin' & E & Hproj)]; [by rewrite lookup_empty in H0|].
  apply str_inj in E as <-.
  assert (data = data') as <- by (by eapply NoDup_fst_functional).
  apply projected_node_coords in Hproj. congruence.
Qed.

(** ** The edge list of the network document *)

Lemma Forall2_elem_of_r {A B : Type} (P : A → B → Prop) (l : list A)
    (k : list B) (y : B) :
  Forall2 P l k → y ∈ k → ∃ x, x ∈ l ∧ P x y.
Proof.
  intros HF (i & Hi)%list_elem_of_lookup.
  destruct (Forall2_lookup_r _ _ _ _ _ HF Hi) as (x & Hx & HP).
  exists x. split; [|done]. apply list_elem_of_lookup. by exists i.
Qed.

Lemma endpoints_present_true (nodes : gmap string Node)
    (e : node_id * node_id * Tags) :
  endpoints_present nodes e = true
  ↔ is_Some (nodes !! str e.1.1) ∧ is_Some (nodes !! str e.1.2).
Proof.
  unfold endpoints_present. by rewrite andb_true_iff, !bool_decide_eq_true.
Qed.

Lemma make_edge_Some (nodes : gmap string Node) (e : node_id * node_id * Tags)
    (edge : Edge) :
  make_edge nodes e.1.1 e.1.2 e.2 = Some edge → projected_edge nodes e edge.
Proof.
  unfold make_edge, edge_properties, projected_edge.
  destruct (nodes !! str e.1.1) as [nu|]; [simpl|done].
  destruct (nodes !! str e.1.2) as [nv|]; [simpl|done].
  destruct (float (get e.2 "length" (VInt 0))) as [len|]; [simpl|done].
  intros [= <-]. by exists nu, nv, len.
Qed.

Lemma make_edge_total (nodes : gmap string Node)
    (e : node_id * node_id * Tags) :
  endpoints_present nodes e = true → is_Some (edge_properties e.2) →
  is_Some (make_edge nodes e.1.1 e.1.2 e.2).
Proof.
  intros [[nu Hu] [nv Hv]]%endpoints_present_true [props Hp].
  unfold make_edge. rewrite Hu, Hv. simpl. rewrite Hp. by eexists.
Qed.

(** The exported edges are the projections, in order, of the raw edges
    whose two endpoints are in the node mapping. *)
Lemma extract_edges_Forall2 (nodes : gmap string Node)
    (es : list (node_id * node_id * Tags)) (edges : list Edge) :
  extract_edges nodes es = Some edges →
  Forall2 (projected_edge nodes)
    (filter (λ e, endpoints_present nodes e = true) es) edges.
Proof.
  revert edges. induction es as [|e es IH]; intros edges; simpl.
  - intros [= <-]. constructor.
  - rewrite filter_cons.
    destruct (endpoints_present nodes e) eqn:Hp.
    + rewrite decide_True by done.
      destruct (make_edge nodes e.1.1 e.1.2 e.2) as [edge|] eqn:He;
        [simpl|done].
      destruct (extract_edges nodes es) as [rest|]; [simpl|done].
      intros [= <-]. constructor; [by apply make_edge_Some|by apply IH].
    + rewrite decide_False by done. apply IH.
Qed.

Lemma extract_edges_total (nodes : gmap string Node)
    (es : list (node_id * node_id * Tags)) :
  Forall (λ e, is_Some (edge_properties e.2)) es →
  is_Some (extract_edges nodes es).
Proof.
  induction es as [|e es IH]; intros Hall; [by eexists|].
  apply list.Forall_cons in Hall as [He Hall]. simpl.
  destruct (IH Hall) as [rest Hrest].
  destruct (endpoints_present nodes e) eqn:Hp; [|by rewrite Hrest].
  destruct (make_edge_total nodes e Hp He) as [edge ->]. simpl.
  rewrite Hrest. by eexists.
Qed.

Lemma projected_edge_length (nodes : gmap string Node)
    (e : node_id * node_id * Tags) (edge : Edge) :
  projected_edge nodes e edge →
  ∃ length, float (get e.2 "length" (VInt 0)) = Some length
            ∧ e_properties edge !! "length" = Some (VFloat length).
Proof.
  intros (nu & nv & len & _ & _ & Hlen & ->). exists len. split; [done|].
  simpl. unfold edge_properties_of. by simplify_map_eq.
Qed.

(** ** The adjacency mapping *)

Lemma append_entry_Some (graph graph' : gmap string (list AdjacencyEntry))
    (k : string) (entry : AdjacencyEntry) :
  append_entry graph k entry = Some graph' →
  ∃ l, graph !! k = Some l ∧ graph' = <[k := l ++ [entry]]> graph.
Proof.
  unfold append_entry. destruct (graph !! k) as [l|]; [simpl|done].
  intros [= <-]. by exists l.
Qed.

Lemma graph_body_Some (graph graph' : gmap string (list AdjacencyEntry))
    (edge : Edge) :
  graph_body graph edge = Some graph' →
  ∃ d lf lt,
    e_properties edge !! "length" = Some d
    ∧ graph !! e_from edge = Some lf
    ∧ <[e_from edge :=
          lf ++ [ {| to := e_to edge; distance := d; edge_id := e_id edge |} ]]>
        graph !! e_to edge = Some lt
    ∧ graph'
      = <[e_to edge :=
            lt ++ [ {| to := e_from edge; distance := d;
                       edge_id := e_id edge |} ]]>
          (<[e_from edge :=
               lf ++ [ {| to := e_to edge; distance := d;
                          edge_id := e_id edge |} ]]> graph).
Proof.
  unfold graph_body.
  destruct (e_properties edge !! "length") as [d|]; [simpl|done].
  destruct (append_entry graph _ _) as [graph1|] eqn:H1; [simpl|done].
  intros H2.
  apply append_entry_Some in H1 as (lf & Hf & ->).
  apply append_entry_Some in H2 as (lt & Ht & ->).
  by exists d, lf, lt.
Qed.

(** One round of the loop appends the entries of the edge, and nothing
    else, to the lists of its endpoints. *)
Lemma graph_body_lookup (graph graph' : gmap string (list AdjacencyEntry))
    (edge : Edge) (k : string) :
  graph_body graph edge = Some graph' →
  graph' !! k = (λ l, l ++ entries_at k edge) <$> graph !! k.
Proof.
  intros (d & lf & lt & Hd & Hf & Ht & ->)%graph_body_Some.
  unfold entries_at. rewrite Hd. simpl.
  destruct (decide (e_to edge = k)) as [<-|Hto].
  - rewrite lookup_insert_eq.
    destruct (decide (e_from edge = e_to edge)) as [E|Hfrom].
    + rewrite E in *. rewrite lookup_insert_eq in Ht. injection Ht as <-.
      rewrite Hf. simpl. by rewrite <- app_assoc.
    + rewrite lookup_insert_ne in Ht by done. by rewrite Ht.
  - rewrite lookup_insert_ne by done.
    destruct (decide (e_from edge = k)) as [<-|Hfrom].
    + rewrite lookup_insert_eq, Hf. done.
    + rewrite lookup_insert_ne by done.
      destruct (graph !! k); simpl; [by rewrite app_nil_r|done].
Qed.

Lemma adjacency_of_cons (k : string) (edge : Edge) (edges : list Edge) :
  adjacency_of k (edge :: edges) = entries_at k edge ++ adjacency_of k edges.
Proof. unfold adjacency_of. apply bind_cons. Qed.

Lemma build_graph_lookup (graph0 graph : gmap string (list AdjacencyEntry))
    (edges : list Edge) (k : string) :
  foldlM graph_body graph0 edges = Some graph →
  graph !! k = (λ l, l ++ adjacency_of k edges) <$> graph0 !! k.
Proof.
  revert graph0. induction edges as [|edge edges IH]; intros graph0 Hrun;
    simpl in Hrun.
  - injection Hrun as <-. unfold adjacency_of. simpl.
    destruct (graph0 !! k); simpl; [by rewrite app_nil_r|done].
  - destruct (graph_body graph0 edge) as [graph1|] eqn:Hbody;
      [simpl in Hrun|done].
    rewrite (IH _ Hrun), (graph_body_lookup _ _ _ k Hbody).
    rewrite adjacency_of_cons.
    destruct (graph0 !! k); simpl; [|done]. by rewrite <- app_assoc.
Qed.

Lemma graph_body_total (graph : gmap string (list AdjacencyEntry))
    (edge : Edge) :
  is_Some (graph !! e_from edge) → is_Some (graph !! e_to edge) →
  is_Some (e_properties edge !! "length") →
  is_Some (graph_body graph edge).
Proof.
  intros [lf Hf] [lt Ht] [d Hd]. unfold graph_body, append_entry.
  rewrite Hd. simpl. rewrite Hf. simpl.
  destruct (decide (e_from edge = e_to edge)) as [E|Hne].
  - rewrite <- E, lookup_insert_eq. by eexists.
  - rewrite lookup_insert_ne, Ht by done. by eexists.
Qed.

Lemma build_graph_total (graph0 : gmap string (list AdjacencyEntry))
    (edges : list Edge) :
  Forall (λ edge, is_Some (graph0 !! e_from edge)
                  ∧ is_Some (graph0 !! e_to edge)
                  ∧ is_Some (e_properties edge !! "length")) edges →
  is_Some (foldlM graph_body graph0 edges).
Proof.
  revert graph0. induction edges as [|edge edges IH]; intros graph0 Hall;
    [by eexists|].
  apply list.Forall_cons in Hall as [(Hf & Ht & Hd) Hall]. simpl.
  destruct (graph_body_total graph0 edge Hf Ht Hd) as [graph1 Hbody].
  rewrite Hbody. simpl. apply IH.
  eapply list.Forall_impl; [exact Hall|]. intros e (Hf' & Ht' & Hd').
  rewrite !(graph_body_lookup _ _ _ _ Hbody), !fmap_is_Some. done.
Qed.

(** *** Counting the entries *)

Lemma entry_count_insert (graph : gmap string (list AdjacencyEntry))
    (k : string) (l l' : list AdjacencyEntry) :
  graph !! k = Some l →
  (entry_count (<[k := l']> graph) + length l
   = entry_count graph + length l')%nat.
Proof.
  intros Hk. unfold entry_count.
  rewrite (map_fold_delete_L _ _ k l graph) by (intros; lia || done).
  rewrite <- (insert_delete_eq graph).
  rewrite map_fold_insert_L; [lia|intros; lia|apply lookup_delete_eq].
Qed.

Lemma entry_count_init (nodes : gmap string Node) :
  entry_count ((λ _, []) <$> nodes) = 0%nat.
Proof.
  unfold entry_count. rewrite map_fold_fmap.
  induction nodes as [|k node nodes Hk _ IH] using map_first_key_ind.
  - by rewrite map_fold_empty.
  - rewrite map_fold_insert_L; [|intros; simpl; lia|done]. simpl. exact IH.
Qed.

Lemma graph_body_count (graph graph' : gmap string (list AdjacencyEntry))
    (edge : Edge) :
  graph_body graph edge = Some graph' →
  entry_count graph' = (2 + entry_count graph)%nat.
Proof.
  intros (d & lf & lt & _ & Hf & Ht & ->)%graph_body_Some.
  pose proof (entry_count_insert _ _ _
    (lf ++ [ {| to := e_to edge; distance := d; edge_id := e_id edge |} ])
    Hf) as H1.
  pose proof (entry_count_insert _ _ _
    (lt ++ [ {| to := e_from edge; distance := d; edge_id := e_id edge |} ])
    Ht) as H2.
  rewrite !length_app in *. simpl in *. lia.
Qed.

Lemma build_graph_count (graph0 graph : gmap string (list AdjacencyEntry))
    (edges : list Edge) :
  foldlM graph_body graph0 edges = Some graph →
  entry_count graph = (2 * length edges + entry_count graph0)%nat.
Proof.
  revert graph0. induction edges as [|edge edges IH]; intros graph0 Hrun;
    simpl in Hrun.
  - by injection Hrun as <-.
  - destruct (graph_body graph0 edge) as [graph1|] eqn:Hbody;
      [simpl in Hrun|done].
    rewrite (IH _ Hrun), (graph_body_count _ _ _ Hbody). simpl. lia.
Qed.

(** ** The network document as a whole *)

Lemma process_undirected_Some (Gu : MultiGraph) (doc : NetworkDocument) :
  process_undirected Gu = Some doc →
  extract_nodes (un_nodes Gu) = Some (nodes doc)
  ∧ extract_edges (nodes doc) (un_edges Gu) = Some (edges doc)
  ∧ build_graph (nodes doc) (edges doc) = Some (graph doc)
  ∧ walkable_areas doc = walkable_area <$> edges doc
  ∧ node_count (metadata doc) = size (nodes doc)
  ∧ edge_count (metadata doc) = length (edges doc).
Proof.
  unfold process_undirected.
  destruct (extract_nodes (un_nodes Gu)) as [ns|] eqn:Hns; [simpl|done].
  destruct (extract_edges ns (un_edges Gu)) as [es|] eqn:Hes; [simpl|done].
  destruct (build_graph ns es) as [g|] eqn:Hg; [simpl|done].
  intros [= <-]. simpl. done.
Qed.

(** The pipeline raises only when a [float] cast does: the dictionary
    lookups [nodes[str(u)]], [graph[edge['from']]] and
    [edge['properties']['length']] never raise [KeyError]. *)
Lemma process_undirected_total (Gu : MultiGraph) :
  Forall (λ nd, node_castable nd.2) (un_nodes Gu) →
  Forall (λ e, is_Some (edge_properties e.2)) (un_edges Gu) →
  is_Some (process_undirected Gu).
Proof.
  intros Hn He. unfold process_undirected.
  destruct (extract_nodes_total ∅ _ Hn) as [ns Hns].
  unfold extract_nodes. rewrite Hns. simpl.
  destruct (extract_edges_total ns _ He) as [es Hes]. rewrite Hes. simpl.
  assert (is_Some (build_graph ns es)) as [g ->]; [|by eexists].
  apply build_graph_total. apply extract_edges_Forall2 in Hes.
  apply list.Forall_forall. intros edge Hin.
  destruct (Forall2_elem_of_r _ _ _ _ Hes Hin) as (e & _ & Hproj).
  destruct (projected_edge_length _ _ _ Hproj) as (len & _ & Hlen).
  destruct Hproj as (nu & nv & len' & Hu & Hv & _ & ->). simpl in *.
  rewrite !lookup_fmap, Hu, Hv. repeat split; by eexists.
Qed.

(** ** The area classifier *)

Lemma eq_str_get_str (p : Tags) (k v : string) :
  v ≠ EmptyString → eq_str (get p k (VStr "")) v = has_tag k v p.
Proof.
  intros Hv. unfold get, has_tag. destruct (p !! k) as [[]|]; simpl; try done.
  destruct v; done.
Qed.

Lemma eq_str_get_none (p : Tags) (k v : string) :
  eq_str (get p k VNone) v = has_tag k v p.
Proof. unfold get, has_tag. by destruct (p !! k) as [[]|]. Qed.

Lemma truthy_get_none (p : Tags) (k : string) :
  truthy (get p k VNone) = truthy_tag k p.
Proof. unfold get, truthy_tag. by destruct (p !! k). Qed.

Lemma determine_area_type_first_match (properties : Tags) :
  determine_area_type properties = first_match area_rules "path" properties.
Proof.
  unfold determine_area_type, area_rules, first_match, in_strs. simpl.
  rewrite !eq_str_get_str by done.
  rewrite eq_str_get_none, truthy_get_none.
  destruct (has_tag "highway" "footway" properties); [done|].
  destruct (has_tag "highway" "pedestrian" properties); [done|].
  destruct (has_tag "highway" "living_street" properties); [done|].
  destruct (has_tag "highway" "residential" properties),
    (truthy_tag "sidewalk" properties); simpl; try done;
    by destruct (has_tag "highway" "primary" properties),
      (has_tag "highway" "secondary" properties),
      (has_tag "highway" "tertiary" properties).
Qed.

Lemma first_match_label (rules : list ((Tags → bool) * string))
    (dflt : string) (p : Tags) :
  first_match rules dflt p = dflt ∨ first_match rules dflt p ∈ rules.*2.
Proof.
  induction rules as [|[cond label] rules IH]; simpl; [by left|].
  destruct (cond p).
  - right. apply elem_of_cons. by left.
  - destruct IH as [->|IH]; [by left|]. right. apply elem_of_cons. by right.
Qed.

(** C2. The classifier is a total function of the properties bag into
    {path, road, sidewalk, plaza} that applies the seven rules of the
    specification in order, the first matching rule deciding: footway
    and pedestrian give path, living_street gives road, residential or
    primary/secondary/tertiary with a truthy sidewalk tag give sidewalk,
    a park leisure tag gives plaza, anything else path; with the five
    sample bags classified as the specification lists them. *)
Theorem classifier_rules (properties : Tags) :
  determine_area_type properties = first_match area_rules "path" properties
  ∧ determine_area_type properties ∈ area_labels
  ∧ determine_area_type
      {[ "highway" := VStr "residential"; "sidewalk" := VStr "yes" ]}
    = "sidewalk"
  ∧ determine_area_type {[ "highway" := VStr "footway" ]} = "path"
  ∧ determine_area_type {[ "highway" := VStr "living_street" ]} = "road"
  ∧ determine_area_type {[ "leisure" := VStr "park" ]} = "plaza"
  ∧ determine_area_type ∅ = "path".
Proof.
  split; [apply determine_area_type_first_match|].
  split; [|by vm_compute].
  rewrite determine_area_type_first_match.
  destruct (first_match_label area_rules "path" properties) as [->|H].
  - apply elem_of_cons. by left.
  - revert H. generalize (first_match area_rules "path" properties).
    intros label H. unfold area_rules in H. simpl in H.
    repeat (apply elem_of_cons in H as [->|H]; [by repeat constructor|]).
    by apply elem_of_nil in H.
Qed.

(** ** Walkable areas *)

Lemma edge_properties_of_type (data : Tags) (length : float64) :
  determine_area_type (edge_properties_of data length)
  = if eq_str (get data "highway" (VStr "path")) "living_street"
    then "road" else "path".
Proof.
  unfold determine_area_type.
  assert (get (edge_properties_of data length) "highway" (VStr "")
          = get data "highway" (VStr "path")) as ->
    by (unfold get at 1, edge_properties_of; by simplify_map_eq).
  assert (get (edge_properties_of data length) "sidewalk" VNone = VNone) as ->
    by (unfold get, edge_properties_of; by simplify_map_eq).
  assert (get (edge_properties_of data length) "leisure" VNone = VNone) as ->
    by (unfold get, edge_properties_of; by simplify_map_eq).
  simpl. rewrite !andb_false_r.
  destruct (get data "highway" (VStr "path")) as [| | | |s|]; simpl; try done.
  destruct (String.eqb_spec s "footway") as [->|_]; [done|].
  destruct (String.eqb_spec s "pedestrian") as [->|_]; [done|].
  by destruct (String.eqb s "living_street").
Qed.

Lemma process_edges_projected (G : MultiDiGraph) (doc : NetworkDocument) :
  process_network_for_javascript G = Some doc →
  Forall2 (projected_edge (nodes doc))
    (filter (λ e, endpoints_present (nodes doc) e = true)
       (un_edges (to_undirected G)))
    (edges doc).
Proof.
  intros (_ & He & _)%process_undirected_Some.
  by apply extract_edges_Forall2.
Qed.

Lemma process_edge_projected (G : MultiDiGraph) (doc : NetworkDocument)
    (edge : Edge) :
  process_network_for_javascript G = Some doc → edge ∈ edges doc →
  ∃ e, e ∈ un_edges (to_undirected G) ∧ projected_edge (nodes doc) e edge.
Proof.
  intros Hdoc Hin.
  destruct (Forall2_elem_of_r _ _ _ _ (process_edges_projected _ _ Hdoc) Hin)
    as (e & He & Hproj).
  exists e. split; [|done]. by apply list_elem_of_filter in He as [_ He].
Qed.

(** C10. In the undirected-simple pipeline every walkable area is typed
    [path] or [road]: the properties bag handed to the classifier holds
    exactly the keys highway, name, length, width, surface, lit and foot,
    so it has neither a [sidewalk] nor a [leisure] key and the
    [sidewalk] and [plaza] branches are never taken. *)
Theorem walkable_area_types (G : MultiDiGraph) (doc : NetworkDocument) :
  process_network_for_javascript G = Some doc →
  ∀ a, a ∈ walkable_areas doc →
    dom (a_properties a)
    = {[ "highway"; "name"; "length"; "width"; "surface"; "lit"; "foot" ]}
    ∧ a_properties a !! "sidewalk" = None
    ∧ a_properties a !! "leisure" = None
    ∧ (a_type a = "path" ∨ a_type a = "road").
Proof.
  intros Hdoc a Ha.
  pose proof (process_undirected_Some _ _ Hdoc) as (_ & _ & _ & Hw & _).
  rewrite Hw in Ha. apply list_elem_of_fmap in Ha as (edge & -> & Hin).
  destruct (process_edge_projected _ _ _ Hdoc Hin) as (e & _ & Hproj).
  destruct Hproj as (nu & nv & len & _ & _ & _ & ->). simpl.
  split; [|split; [|split]].
  - unfold edge_properties_of. rewrite !dom_insert_L, dom_singleton_L.
    set_solver.
  - unfold edge_properties_of. by simplify_map_eq.
  - unfold edge_properties_of. by simplify_map_eq.
  - rewrite edge_properties_of_type.
    destruct (eq_str _ "living_street"); [by right|by left].
Qed.

(** C8. For the empty raw graph (which [to_undirected] maps to the empty
    undirected graph) the pipeline raises nothing and returns the
    document with [node_count = 0], [edge_count = 0] and empty node
    mapping, edge list, walkable-area list and adjacency mapping. *)
Theorem empty_graph_document :
  to_undirected {| di_nodes := []; di_edges := [] |}
  = {| un_nodes := []; un_edges := [] |} →
  process_network_for_javascript {| di_nodes := []; di_edges := [] |}
  = Some {| metadata :=
              {| area := "Kista, Stockholm";
                 bounds := kista_bounds;
                 node_count := 0;
                 edge_count := 0;
                 generated_at := "2024-01-01T00:00:00Z" |};
            nodes := ∅;
            edges := [];
            walkable_areas := [];
            graph := ∅ |}.
Proof.
  intros Hempty. unfold process_network_for_javascript. rewrite Hempty.
  unfold process_undirected, extract_nodes, build_graph. simpl.
  by rewrite fmap_empty, map_size_empty.
Qed.

(** C4. In the undirected-simple pipeline the adjacency mapping has
    exactly the keys of the node mapping; the list of a node holds, in
    edge order, for every exported edge (u, v) one entry [to = v] when
    the node is u and one entry [to = u] when it is v, and nothing else;
    so each edge produces exactly two entries (an entry to v under u and
    an entry to u under v, with the edge's length as [distance] and the
    edge's id as [edge_id]), the mapping holds twice as many entries as
    there are edges, and a node no edge touches has the empty list. *)
Theorem adjacency_symmetry (G : MultiDiGraph) (doc : NetworkDocument) :
  process_network_for_javascript G = Some doc →
  dom (graph doc) = dom (nodes doc)
  ∧ (∀ k, k ∈ dom (nodes doc) →
       graph doc !! k = Some (adjacency_of k (edges doc)))
  ∧ (∀ edge, edge ∈ edges doc →
       ∃ d lu lv,
         e_properties edge !! "length" = Some d
         ∧ graph doc !! e_from edge = Some lu
         ∧ graph doc !! e_to edge = Some lv
         ∧ {| to := e_to edge; distance := d; edge_id := e_id edge |} ∈ lu
         ∧ {| to := e_from edge; distance := d; edge_id := e_id edge |} ∈ lv)
  ∧ entry_count (graph doc) = (2 * length (edges doc))%nat
  ∧ (∀ k, k ∈ dom (nodes doc) →
       (∀ edge, edge ∈ edges doc → e_from edge ≠ k ∧ e_to edge ≠ k) →
       graph doc !! k = Some []).
Proof.
  intros Hdoc.
  pose proof (process_undirected_Some _ _ Hdoc) as (_ & _ & Hg & _).
  unfold build_graph in Hg.
  assert (Hlook : ∀ k, k ∈ dom (nodes doc) →
            graph doc !! k = Some (adjacency_of k (edges doc))).
  { intros k [node Hk]%elem_of_dom.
    by rewrite (build_graph_lookup _ _ _ k Hg), lookup_fmap, Hk. }
  split; [|split; [done|split; [|split]]].
  - apply set_eq. intros k. rewrite !elem_of_dom.
    by rewrite (build_graph_lookup _ _ _ k Hg), lookup_fmap, !fmap_is_Some.
  - intros edge Hin.
    destruct (process_edge_projected _ _ _ Hdoc Hin) as (e & _ & Hproj).
    destruct (projected_edge_length _ _ _ Hproj) as (len & _ & Hlen).
    assert (e_from edge ∈ dom (nodes doc) ∧ e_to edge ∈ dom (nodes doc))
      as [Hf Ht].
    { destruct Hproj as (nu & nv & ? & Hu & Hv & _ & ->). simpl.
      rewrite !elem_of_dom, Hu, Hv. split; by eexists. }
    exists (VFloat len), (adjacency_of (e_from edge) (edges doc)),
      (adjacency_of (e_to edge) (edges doc)).
    split; [done|]. split; [by apply Hlook|]. split; [by apply Hlook|].
    unfold adjacency_of. split; apply list_elem_of_bind; exists edge;
      (split; [|done]); unfold entries_at; rewrite Hlen; simpl.
    + rewrite decide_True by done. apply elem_of_app. left.
      apply elem_of_cons. by left.
    + rewrite (decide_True (P := e_to edge = e_to edge)) by done.
      apply elem_of_app. right. apply elem_of_cons. by left.
  - by rewrite (build_graph_count _ _ _ Hg), entry_count_init, Nat.add_0_r.
  - intros k Hk Hfree. rewrite (Hlook k Hk). f_equal.
    unfold adjacency_of. clear Hlook Hg Hdoc.
    induction (edges doc) as [|edge es IH]; [done|].
    rewrite bind_cons, IH.
    + destruct (Hfree edge) as [Hf Ht]; [apply elem_of_cons; by left|].
      unfold entries_at. by rewrite !decide_False.
    + intros edge' Hin. apply Hfree, elem_of_cons. by right.
Qed.

(** C5. In the undirected-simple pipeline both endpoints of every
    exported edge are keys of the node mapping; the exported edges are,
    in order, the projections of exactly those raw edges whose two
    endpoints are in the node mapping, the others being dropped; and a
    raw node without both coordinate tags is not in the node mapping
    and is not an endpoint of any exported edge. *)
Theorem endpoint_closure (G : MultiDiGraph) (doc : NetworkDocument) :
  process_network_for_javascript G = Some doc →
  (∀ edge, edge ∈ edges doc →
     e_from edge ∈ dom (nodes doc) ∧ e_to edge ∈ dom (nodes doc))
  ∧ Forall2 (λ e edge, e_from edge = str e.1.1 ∧ e_to edge = str e.1.2)
      (filter (λ e, str e.1.1 ∈ dom (nodes doc) ∧ str e.1.2 ∈ dom (nodes doc))
         (un_edges (to_undirected G)))
      (edges doc)
  ∧ (NoDup (un_nodes (to_undirected G)).*1 →
     ∀ n data, (n, data) ∈ un_nodes (to_undirected G) →
       has_coords data = false →
       (str n ∉ dom (nodes doc))
       ∧ ∀ edge, edge ∈ edges doc → e_from edge ≠ str n ∧ e_to edge ≠ str n).
Proof.
  intros Hdoc.
  pose proof (process_undirected_Some _ _ Hdoc) as (Hn & _).
  assert (Hclosed : ∀ edge, edge ∈ edges doc →
            e_from edge ∈ dom (nodes doc) ∧ e_to edge ∈ dom (nodes doc)).
  { intros edge Hin.
    destruct (process_edge_projected _ _ _ Hdoc Hin)
      as (e & _ & nu & nv & ? & Hu & Hv & _ & ->). simpl.
    rewrite !elem_of_dom, Hu, Hv. split; by eexists. }
  split; [done|]. split.
  - pose proof (process_edges_projected _ _ Hdoc) as HF.
    rewrite (list_filter_iff _
               (λ e, endpoints_present (nodes doc) e = true)).
    + eapply list.Forall2_impl; [exact HF|].
      intros e edge (nu & nv & ? & _ & _ & _ & ->). done.
    + intros e. by rewrite endpoints_present_true, !elem_of_dom.
  - intros Hnd n data Hin Hno.
    assert (Habs : str n ∉ dom (nodes doc)).
    { rewrite not_elem_of_dom. by eapply extract_nodes_absent. }
    split; [done|]. intros edge Hedge.
    destruct (Hclosed edge Hedge) as [Hf Ht]. split; congruence.
Qed.

(** ** Attribute projection *)

Lemma node_attrs_Some (attrs na : Tags) :
  node_attrs attrs = Some na →
  ∃ y x lat lng,
    attrs !! "y" = Some y ∧ attrs !! "x" = Some x
    ∧ float y = Some lat ∧ float x = Some lng
    ∧ na = {[ "lat" := VFloat lat;
              "lng" := VFloat lng;
              "highway" := default (VStr "intersection") (attrs !! "highway");
              "name" := default (VStr "") (attrs !! "name") ]}.
Proof.
  unfold node_attrs, get.
  destruct (attrs !! "y") as [y|]; [simpl|done].
  destruct (float y) as [lat|] eqn:Hlat; [simpl|done].
  destruct (attrs !! "x") as [x|]; [simpl|done].
  destruct (float x) as [lng|] eqn:Hlng; [simpl|done].
  intros [= <-]. by exists y, x, lat, lng.
Qed.

Lemma edge_attrs_Some (attrs ea : Tags) :
  edge_attrs attrs = Some ea →
  ∃ length,
    float (default (VInt 0) (attrs !! "length")) = Some length
    ∧ ea = {[ "highway" := default (VStr "path") (attrs !! "highway");
              "length" := VFloat length;
              "surface" := default (VStr "") (attrs !! "surface");
              "foot" := default (VStr "yes") (attrs !! "foot") ]}.
Proof.
  unfold edge_attrs, get.
  destruct (float (default (VInt 0) (attrs !! "length"))) as [len|] eqn:Hlen;
    [simpl|done].
  intros [= <-]. by exists len.
Qed.

Lemma graphology_edges_attrs (edge_seen : gset string)
    (es : list (node_id * node_id * Z * Tags)) (out : list GEdge) :
  graphology_edges edge_seen es = Some out →
  Forall2 (λ e ge, ge_source ge = str e.1.1.1 ∧ ge_target ge = str e.1.1.2
                   ∧ edge_attrs e.2 = Some (ge_attributes ge)) es out.
Proof.
  revert edge_seen out.
  induction es as [|[[[u v] key] attrs] es IH]; intros edge_seen out; simpl.
  - intros [= <-]. constructor.
  - destruct (unique_key edge_seen (base_key_of u v key)) as [k|];
      [simpl|done].
    destruct (edge_attrs attrs) as [ea|] eqn:Hea; [simpl|done].
    destruct (graphology_edges _ es) as [rest|] eqn:Hrest; [simpl|done].
    intros [= <-]. constructor; [done|]. by eapply IH.
Qed.

Lemma float_zero : float (VInt 0) = Some (S754_zero false).
Proof. reflexivity. Qed.

(** C6 (amended). Attribute projection with its defaults. Keyed-multigraph
    mode: every raw node gives [{lat: float(y), lng: float(x), highway:
    tag or "intersection", name: tag or ""}] under the key [str(node)],
    and every raw edge gives [{highway: tag or "path", length:
    float(tag or 0), surface: tag or "", foot: tag or "yes"}].
    Undirected-simple mode: every exported node comes from a raw node
    with both coordinate tags and has [lat = float(y)], [lng = float(x)],
    [highway] the tag or "intersection" and [name] the tag or "", and
    every raw node with both coordinate tags is exported so (node ids
    being pairwise distinct); every exported edge has the properties [{highway: tag or
    "path", name: tag or "" (the empty string, not null), length:
    float(tag or 0), width, surface, lit: tag or null, foot: tag or
    "yes"}]. The default length [0] is cast to [0.0]. *)
Theorem attribute_projection (G : MultiDiGraph) :
  (∀ data, to_graphology_json G = Some data →
     Forall2
       (λ nd gn,
          gn_key gn = str nd.1
          ∧ ∃ y x lat lng,
              nd.2 !! "y" = Some y ∧ nd.2 !! "x" = Some x
              ∧ float y = Some lat ∧ float x = Some lng
              ∧ gn_attributes gn
                = {[ "lat" := VFloat lat;
                     "lng" := VFloat lng;
                     "highway" :=
                       default (VStr "intersection") (nd.2 !! "highway");
                     "name" := default (VStr "") (nd.2 !! "name") ]})
       (di_nodes G) (g_nodes data)
     ∧ Forall2
         (λ e ge,
            ∃ length,
              float (default (VInt 0) (e.2 !! "length")) = Some length
              ∧ ge_attributes ge
                = {[ "highway" := default (VStr "path") (e.2 !! "highway");
                     "length" := VFloat length;
                     "surface" := default (VStr "") (e.2 !! "surface");
                     "foot" := default (VStr "yes") (e.2 !! "foot") ]})
         (di_edges G) (g_edges data))
  ∧ (∀ doc, process_network_for_javascript G = Some doc →
       (∀ k node, nodes doc !! k = Some node →
          ∃ n data y x,
            (n, data) ∈ un_nodes (to_undirected G) ∧ k = str n
            ∧ data !! "y" = Some y ∧ data !! "x" = Some x
            ∧ float y = Some (n_lat node) ∧ float x = Some (n_lng node)
            ∧ n_properties node !! "highway"
              = Some (default (VStr "intersection") (data !! "highway"))
            ∧ n_properties node !! "name"
              = Some (default (VStr "") (data !! "name")))
       ∧ (NoDup (un_nodes (to_undirected G)).*1 →
          ∀ n data y x,
            (n, data) ∈ un_nodes (to_undirected G) →
            data !! "y" = Some y → data !! "x" = Some x →
            ∃ node,
              nodes doc !! str n = Some node
              ∧ float y = Some (n_lat node) ∧ float x = Some (n_lng node)
              ∧ n_properties node !! "highway"
                = Some (default (VStr "intersection") (data !! "highway"))
              ∧ n_properties node !! "name"
                = Some (default (VStr "") (data !! "name")))
       ∧ Forall2
           (λ e edge,
              ∃ length,
                float (default (VInt 0) (e.2 !! "length")) = Some length
                ∧ e_properties edge
                  = {[ "highway" := default (VStr "path") (e.2 !! "highway");
                       "name" := default (VStr "") (e.2 !! "name");
                       "length" := VFloat length;
                       "width" := default VNone (e.2 !! "width");
                       "surface" := default VNone (e.2 !! "surface");
                       "lit" := default VNone (e.2 !! "lit");
                       "foot" := default (VStr "yes") (e.2 !! "foot") ]})
           (filter (λ e, endpoints_present (nodes doc) e = true)
              (un_edges (to_undirected G)))
           (edges doc))
  ∧ float (VInt 0) = Some (S754_zero false).
Proof.
  split; [|split; [|exact float_zero]].
  - intros data Hdata. unfold to_graphology_json in Hdata.
    destruct (mapM graphology_node (di_nodes G)) as [ns|] eqn:Hns;
      [simpl in Hdata|done].
    destruct (graphology_edges ∅ (di_edges G)) as [es|] eqn:Hes;
      [simpl in Hdata|done].
    injection Hdata as <-. simpl. split.
    + apply mapM_Some in Hns.
      eapply list.Forall2_impl; [exact Hns|].
      intros [n attrs] gn. unfold graphology_node. simpl.
      destruct (node_attrs attrs) as [na|] eqn:Hna; [simpl|done].
      intros [= <-]. split; [done|]. by apply node_attrs_Some.
    + eapply list.Forall2_impl; [exact (graphology_edges_attrs _ _ _ Hes)|].
      intros e ge (_ & _ & Hea). by apply edge_attrs_Some.
  - intros doc Hdoc.
    pose proof (process_undirected_Some _ _ Hdoc) as (Hn & _).
    split; [|split].
    + intros k node Hk.
      destruct (extract_nodes_lookup _ _ _ _ _ Hn Hk)
        as [H0|(n & data & Hin & -> & Hproj)];
        [by rewrite lookup_empty in H0|].
      destruct Hproj as (y & x & Hy & Hx & Hlat & Hlng & _ & Hprops).
      exists n, data, y, x. rewrite Hprops. unfold node_properties_of, get.
      repeat split; try done; by simplify_map_eq.
    + intros Hnd n data y x Hin Hy Hx.
      destruct (extract_nodes_present _ _ _ n data Hnd Hn Hin)
        as (node & Hnode & Hproj).
      { apply has_coords_true. rewrite Hy, Hx. split; by eexists. }
      destruct Hproj as (y' & x' & Hy' & Hx' & Hlat & Hlng & _ & Hprops).
      exists node. rewrite Hprops. unfold node_properties_of, get.
      repeat split; try done; try congruence; by simplify_map_eq.
    + eapply list.Forall2_impl; [exact (process_edges_projected _ _ Hdoc)|].
      intros e edge (nu & nv & len & _ & _ & Hlen & ->). by exists len.
Qed.

(** ** Edge identifiers *)

Lemma NoDup_fmap_transfer {A B C : Type} (f : A → B) (g : A → C)
    (l : list A) :
  (∀ x y, x ∈ l → y ∈ l → g x = g y → f x = f y) →
  NoDup (f <$> l) → NoDup (g <$> l).
Proof.
  induction l as [|x l IH]; intros Hfg; simpl; [constructor|].
  rewrite !list.NoDup_cons. intros [Hx Hnd]. split.
  - intros (y & Hxy & Hy)%list_elem_of_fmap. apply Hx.
    apply list_elem_of_fmap. exists y. split; [|done].
    apply Hfg; [apply elem_of_cons; by left|apply elem_of_cons; by right|done].
  - apply IH; [|done]. intros a b Ha Hb.
    apply Hfg; apply elem_of_cons; by right.
Qed.

Lemma process_edge_id (G : MultiDiGraph) (doc : NetworkDocument)
    (e1 e2 : Edge) :
  process_network_for_javascript G = Some doc →
  e1 ∈ edges doc → e2 ∈ edges doc →
  e_id e1 = e_id e2 ↔ e_from e1 = e_from e2 ∧ e_to e1 = e_to e2.
Proof.
  intros Hdoc H1 H2.
  destruct (process_edge_projected _ _ _ Hdoc H1)
    as (r1 & _ & ? & ? & ? & _ & _ & _ & ->).
  destruct (process_edge_projected _ _ _ Hdoc H2)
    as (r2 & _ & ? & ? & ? & _ & _ & _ & ->).
  simpl. split.
  - by intros [-> ->]%edge_name_inj.
  - intros [->%str_inj ->%str_inj]. done.
Qed.

(** C1 (amended). In keyed-multigraph mode the keys of the exported
    edges are pairwise distinct. In undirected-simple mode the id
    [edge_{u}_{v}] is a function of the endpoint pair only: two exported
    edges have the same id exactly when they have the same [from] and
    the same [to], so the ids are pairwise distinct exactly when no two
    exported edges join the same ordered pair of endpoints. *)
Theorem edge_identifiers (G : MultiDiGraph) :
  (∀ data, to_graphology_json G = Some data →
     NoDup (ge_key <$> g_edges data))
  ∧ (∀ doc, process_network_for_javascript G = Some doc →
       (∀ e1 e2, e1 ∈ edges doc → e2 ∈ edges doc →
          e_id e1 = e_id e2 ↔ e_from e1 = e_from e2 ∧ e_to e1 = e_to e2)
       ∧ (NoDup (e_id <$> edges doc)
          ↔ NoDup ((λ e, (e_from e, e_to e)) <$> edges doc))).
Proof.
  split; [apply to_graphology_json_NoDup|].
  intros doc Hdoc. split; [intros; by eapply process_edge_id|].
  split; apply NoDup_fmap_transfer; intros e1 e2 H1 H2 E.
  - injection E as Ef Et. by apply (process_edge_id _ _ _ _ Hdoc H1 H2).
  - apply (process_edge_id _ _ _ _ Hdoc H1 H2) in E as [-> ->]. done.
Qed.

(** ** Writing the files *)

Lemma path_join_inj (dir a b : string) :
  path_join dir a = path_join dir b → a = b.
Proof.
  unfold path_join. destruct dir as [|c dir]; [done|].
  destruct (ends_with_slash (String c dir)); intros E;
    apply append_inj_l in E; [done|]. by injection E.
Qed.

Lemma export_paths_distinct (output_dir : string) :
  document_path output_dir ≠ areas_path output_dir
  ∧ document_path output_dir ≠ graph_path output_dir
  ∧ areas_path output_dir ≠ graph_path output_dir.
Proof.
  unfold document_path, areas_path, graph_path.
  repeat split; intros E; by apply path_join_inj in E.
Qed.

Lemma write_json_cases (flt : faults) (path : string) (p : payload)
    (fs : gmap string file) :
  (open_fails flt path = true ∧ write_json flt path p fs = (fs, None))
  ∨ (open_fails flt path = false ∧ dump_fails flt path = true
     ∧ write_json flt path p fs = (<[path := Partial]> fs, None))
  ∨ (open_fails flt path = false ∧ dump_fails flt path = false
     ∧ write_json flt path p fs = (<[path := Complete p]> fs, Some ())).
Proof.
  unfold write_json.
  destruct (open_fails flt path); [by left|].
  destruct (dump_fails flt path); [right; by left|right; by right].
Qed.

(** * Further properties of the scripts *)

(** ** When the undirected-simple pipeline raises *)

Lemma node_body_castable (nodes nodes' : gmap string Node)
    (nd : node_id * Tags) :
  node_body nodes nd = Some nodes' → node_castable nd.2.
Proof.
  destruct nd as [n data]. unfold node_body, node_castable. simpl.
  intros Hbody y x Hy Hx. rewrite Hy, Hx in Hbody.
  destruct (float y) as [lat|]; [simpl in Hbody|done].
  destruct (float x) as [lng|]; [|done]. split; by eexists.
Qed.

Lemma extract_nodes_castable (nodes0 nodes : gmap string Node)
    (l : list (node_id * Tags)) :
  foldlM node_body nodes0 l = Some nodes →
  Forall (λ nd, node_castable nd.2) l.
Proof.
  revert nodes0. induction l as [|nd l IH]; intros nodes0 Hrun;
    simpl in Hrun; [constructor|].
  destruct (node_body nodes0 nd) as [nodes1|] eqn:Hbody; [simpl in Hrun|done].
  constructor; [by eapply node_body_castable|by eapply IH].
Qed.

(** The keys of the node mapping are the formatted ids of the raw nodes
    with both coordinate tags. *)
Lemma extract_nodes_dom (nodes0 nodes : gmap string Node)
    (l : list (node_id * Tags)) (k : string) :
  foldlM node_body nodes0 l = Some nodes →
  is_Some (nodes !! k)
  ↔ is_Some (nodes0 !! k)
    ∨ ∃ nd, nd ∈ l ∧ k = str nd.1 ∧ has_coords nd.2 = true.
Proof.
  revert nodes0. induction l as [|nd l IH]; intros nodes0 Hrun;
    simpl in Hrun.
  - injection Hrun as <-. split; [by left|].
    intros [H|(nd & Hin & _)]; [done|by apply elem_of_nil in Hin].
  - destruct (node_body nodes0 nd) as [nodes1|] eqn:Hbody;
      [simpl in Hrun|done].
    rewrite (IH _ Hrun).
    apply node_body_Some in Hbody as [[Hno ->]|(node & Hproj & ->)].
    + split.
      * intros [H|(nd' & Hin & Hk & Hc)]; [by left|right].
        exists nd'. split; [apply elem_of_cons; by right|done].
      * intros [H|(nd' & Hin & Hk & Hc)]; [by left|].
        apply elem_of_cons in Hin as [->|Hin]; [congruence|].
        right. by exists nd'.
    + apply projected_node_coords in Hproj. split.
      * intros [H|(nd' & Hin & Hk & Hc)].
        -- destruct (decide (str nd.1 = k)) as [<-|Hne].
           ++ right. exists nd. split; [apply elem_of_cons; by left|done].
           ++ left. by rewrite lookup_insert_ne in H.
        -- right. exists nd'. split; [apply elem_of_cons; by right|done].
      * intros [H|(nd' & Hin & Hk & Hc)].
        -- left. destruct (decide (str nd.1 = k)) as [<-|Hne].
           ++ rewrite lookup_insert_eq. by eexists.
           ++ by rewrite lookup_insert_ne.
        -- apply elem_of_cons in Hin as [->|Hin].
           ++ left. subst k. rewrite lookup_insert_eq. by eexists.
           ++ right. by exists nd'.
Qed.

Lemma extract_nodes_kept (nodes : gmap string Node)
    (l : list (node_id * Tags)) (n : Z) :
  extract_nodes l = Some nodes → is_Some (nodes !! str n) ↔ kept l n.
Proof.
  intros Hrun. unfold extract_nodes in Hrun.
  rewrite (extract_nodes_dom _ _ _ _ Hrun), lookup_empty. unfold kept. split.
  - intros [[? [=]]|([n' data] & Hin & Hk & Hc)]. simpl in *.
    apply str_inj in Hk as ->. by exists data.
  - intros (data & Hin & Hc). right. by exists (n, data).
Qed.

Lemma edge_properties_is_Some (data : Tags) :
  is_Some (edge_properties data) ↔ length_castable data.
Proof.
  unfold edge_properties, length_castable.
  destruct (float (get data "length" (VInt 0))); simpl.
  - split; intros _; by eexists.
  - split; by intros [? [=]].
Qed.

Lemma extract_edges_is_Some (nodes : gmap string Node)
    (es : list (node_id * node_id * Tags)) :
  is_Some (extract_edges nodes es)
  ↔ Forall (λ e, endpoints_present nodes e = true → length_castable e.2) es.
Proof.
  induction es as [|e es IH]; simpl.
  - split; [constructor|by eexists].
  - rewrite list.Forall_cons, <- IH.
    destruct (endpoints_present nodes e) eqn:Hp.
    + unfold make_edge.
      apply endpoints_present_true in Hp as [[nu ->] [nv ->]]. simpl.
      destruct (edge_properties e.2) as [props|] eqn:Hprops; simpl.
      * assert (length_castable e.2)
          by (apply edge_properties_is_Some; by eexists).
        destruct (extract_edges nodes es); simpl.
        -- split; [intros _; split; [done|by eexists]|by eexists].
        -- split; [by intros [? [=]]|by intros [_ [? [=]]]].
      * split; [by intros [? [=]]|].
        intros [Hc _]. specialize (Hc eq_refl).
        apply edge_properties_is_Some in Hc as [? Hc]. congruence.
    + split; [intros H; split; [done|exact H]|by intros [_ H]].
Qed.

Lemma process_undirected_is_Some (Gu : MultiGraph) :
  is_Some (process_undirected Gu)
  ↔ ∃ nodes, extract_nodes (un_nodes Gu) = Some nodes
             ∧ is_Some (extract_edges nodes (un_edges Gu)).
Proof.
  split.
  - intros [doc Hdoc]. apply process_undirected_Some in Hdoc as (Hn & He & _).
    exists (nodes doc). split; [done|]. rewrite He. by eexists.
  - intros (ns & Hns & [es Hes]). unfold process_undirected.
    rewrite Hns. simpl. rewrite Hes. simpl.
    assert (is_Some (build_graph ns es)) as [g ->]; [|by eexists].
    apply build_graph_total. apply extract_edges_Forall2 in Hes.
    apply list.Forall_forall. intros edge Hin.
    destruct (Forall2_elem_of_r _ _ _ _ Hes Hin) as (e & _ & Hproj).
    destruct (projected_edge_length _ _ _ Hproj) as (len & _ & Hlen).
    destruct Hproj as (nu & nv & len' & Hu & Hv & _ & ->). simpl in *.
    rewrite !lookup_fmap, Hu, Hv. repeat split; by eexists.
Qed.

(** X1. The undirected-simple pipeline raises exactly when a [float]
    cast does: it returns a document if and only if the [y] and [x] tags
    of every raw node that has both can be cast, and the [length] tag (or
    the default 0) of every raw edge whose two endpoints are exported
    nodes can be cast. No dictionary lookup raises [KeyError], and the
    [length] of a dropped edge is never cast. *)
Theorem pipeline_raises_only_on_casts (G : MultiDiGraph) :
  is_Some (process_network_for_javascript G)
  ↔ Forall (λ nd, node_castable nd.2) (un_nodes (to_undirected G))
    ∧ Forall (λ e, kept (un_nodes (to_undirected G)) e.1.1 →
                   kept (un_nodes (to_undirected G)) e.1.2 →
                   length_castable e.2)
        (un_edges (to_undirected G)).
Proof.
  unfold process_network_for_javascript.
  rewrite process_undirected_is_Some. split.
  - intros (ns & Hns & Hes). split; [by eapply extract_nodes_castable|].
    apply extract_edges_is_Some in Hes.
    eapply list.Forall_impl; [exact Hes|]. intros e Hc Hu Hv. apply Hc.
    apply endpoints_present_true.
    by rewrite !(extract_nodes_kept _ _ _ Hns).
  - intros [Hn He].
    destruct (extract_nodes_total ∅ _ Hn) as [ns Hns].
    exists ns. split; [done|]. apply extract_edges_is_Some.
    eapply list.Forall_impl; [exact He|]. intros e Hc Hp.
    apply endpoints_present_true in Hp as [Hu Hv].
    apply Hc; by apply (extract_nodes_kept _ _ _ Hns).
Qed.

(** ** Sizes of the document *)

Lemma extract_nodes_size (nodes0 nodes : gmap string Node)
    (l : list (node_id * Tags)) :
  NoDup l.*1 →
  (∀ nd, nd ∈ l → nodes0 !! str nd.1 = None) →
  foldlM node_body nodes0 l = Some nodes →
  size nodes
  = (size nodes0 + length (filter (λ nd, has_coords nd.2 = true) l))%nat.
Proof.
  revert nodes0. induction l as [|nd l IH]; intros nodes0 Hnd Hfresh Hrun;
    simpl in Hrun.
  - injection Hrun as <-. simpl. lia.
  - apply list.NoDup_cons in Hnd as [Hhead Hnd].
    destruct (node_body nodes0 nd) as [nodes1|] eqn:Hbody;
      [simpl in Hrun|done].
    rewrite filter_cons.
    apply node_body_Some in Hbody as [[Hno ->]|(node & Hproj & ->)].
    + rewrite decide_False by congruence. apply IH; [done| |done].
      intros nd' Hin. apply Hfresh, elem_of_cons. by right.
    + rewrite decide_True by (by eapply projected_node_coords).
      assert (Hfresh' : ∀ nd', nd' ∈ l →
                <[str nd.1 := node]> nodes0 !! str nd'.1 = None).
      { intros nd' Hin. rewrite lookup_insert_ne.
        - apply Hfresh, elem_of_cons. by right.
        - intros E. apply str_inj in E. apply Hhead.
          apply list_elem_of_fmap. by exists nd'. }
      rewrite (IH _ Hnd Hfresh' Hrun).
      rewrite map_size_insert_None; [simpl; lia|].
      apply Hfresh, elem_of_cons. by left.
Qed.

(** X2. The counts of the metadata block: [node_count] is the number of
    raw nodes that have both coordinate tags (node ids being pairwise
    distinct), [edge_count] is the number of raw edges whose two endpoints
    are exported nodes, and there are as many walkable areas as edges. *)
Theorem metadata_counts (G : MultiDiGraph) (doc : NetworkDocument) :
  NoDup (un_nodes (to_undirected G)).*1 →
  process_network_for_javascript G = Some doc →
  node_count (metadata doc)
  = length (filter (λ nd, has_coords nd.2 = true)
              (un_nodes (to_undirected G)))
  ∧ edge_count (metadata doc)
    = length (filter (λ e, kept (un_nodes (to_undirected G)) e.1.1
                           ∧ kept (un_nodes (to_undirected G)) e.1.2)
                (un_edges (to_undirected G)))
  ∧ length (walkable_areas doc) = edge_count (metadata doc)
  ∧ size (graph doc) = node_count (metadata doc).
Proof.
  intros Hnd Hdoc.
  pose proof (process_undirected_Some _ _ Hdoc)
    as (Hn & He & Hg & Hw & -> & ->).
  split; [|split; [|split]].
  - unfold extract_nodes in Hn.
    rewrite (extract_nodes_size _ _ _ Hnd (λ _ _, lookup_empty _) Hn).
    by rewrite map_size_empty.
  - apply extract_edges_Forall2, Forall2_length in He. rewrite <- He.
    f_equiv. apply list_filter_iff. intros e.
    by rewrite endpoints_present_true, !(extract_nodes_kept _ _ _ Hn).
  - by rewrite Hw, length_fmap.
  - unfold build_graph in Hg.
    assert (dom (graph doc) = dom (nodes doc)) as Hdom.
    { apply set_eq. intros k. rewrite !elem_of_dom.
      by rewrite (build_graph_lookup _ _ _ k Hg), lookup_fmap, !fmap_is_Some. }
    by rewrite <- !size_dom, Hdom.
Qed.

(** X3. When no raw node has both coordinate tags, the pipeline returns
    the empty document whatever the raw edges are: every edge is dropped
    before its [length] is looked at, so nothing raises. *)
Theorem no_coordinates_empty_document (G : MultiDiGraph) :
  (∀ nd, nd ∈ un_nodes (to_undirected G) → has_coords nd.2 = false) →
  process_network_for_javascript G
  = Some {| metadata :=
              {| area := "Kista, Stockholm";
                 bounds := kista_bounds;
                 node_count := 0;
                 edge_count := 0;
                 generated_at := "2024-01-01T00:00:00Z" |};
            nodes := ∅;
            edges := [];
            walkable_areas := [];
            graph := ∅ |}.
Proof.
  intros Hno. unfold process_network_for_javascript, process_undirected.
  assert (Hn : extract_nodes (un_nodes (to_undirected G)) = Some ∅).
  { unfold extract_nodes.
    induction (un_nodes (to_undirected G)) as [|[n data] l IH]; [done|].
    simpl. pose proof (Hno (n, data) ltac:(apply elem_of_cons; by left)) as Hc.
    simpl in Hc. unfold has_coords in Hc.
    destruct (data !! "y") as [y|]; [|apply IH; intros nd Hin;
      apply Hno, elem_of_cons; by right].
    destruct (data !! "x") as [x|]; [|apply IH; intros nd Hin;
      apply Hno, elem_of_cons; by right].
    exfalso. rewrite !bool_decide_eq_true_2 in Hc by (by eexists). done. }
  rewrite Hn. simpl.
  assert (He : extract_edges ∅ (un_edges (to_undirected G)) = Some []).
  { induction (un_edges (to_undirected G)) as [|e es IH]; [done|].
    simpl. unfold endpoints_present. rewrite lookup_empty.
    rewrite bool_decide_eq_false_2 by (by intros [? [=]]). simpl. exact IH. }
  rewrite He. simpl. unfold build_graph. simpl.
  by rewrite fmap_empty, map_size_empty.
Qed.

(** ** Internal consistency of the document *)

(** X4. Every node of the node mapping is stored under its own [id], the
    [id] is the formatted id of a raw node, and its properties bag has
    exactly the keys [highway], [name] and [intersection], the last one
    being the raw tag or [False]. *)
Theorem node_records (G : MultiDiGraph) (doc : NetworkDocument) :
  process_network_for_javascript G = Some doc →
  ∀ k node, nodes doc !! k = Some node →
    n_id node = k
    ∧ dom (n_properties node) = {[ "highway"; "name"; "intersection" ]}
    ∧ ∃ n data,
        (n, data) ∈ un_nodes (to_undirected G) ∧ k = str n
        ∧ n_properties node !! "intersection"
          = Some (default (VBool false) (data !! "intersection")).
Proof.
  intros Hdoc k node Hk.
  pose proof (process_undirected_Some _ _ Hdoc) as (Hn & _).
  destruct (extract_nodes_lookup _ _ _ _ _ Hn Hk)
    as [H0|(n & data & Hin & -> & Hproj)]; [by rewrite lookup_empty in H0|].
  destruct Hproj as (y & x & _ & _ & _ & _ & Hid & Hprops).
  split; [done|]. rewrite Hprops. unfold node_properties_of, get. split.
  - rewrite !dom_insert_L, dom_singleton_L.
    apply set_eq. intros s. rewrite !elem_of_union, !elem_of_singleton.
    tauto.
  - exists n, data. split; [done|]. split; [done|]. by simplify_map_eq.
Qed.

(** X5. Every exported edge is consistent with the node mapping: its id
    is [edge_] followed by its two endpoint keys, both endpoints are
    nodes of the mapping, and its coordinate pair is the position of the
    [from] node followed by the position of the [to] node. The walkable
    area at the same position of its list carries the same id,
    coordinates and properties. *)
Theorem edge_records (G : MultiDiGraph) (doc : NetworkDocument) :
  process_network_for_javascript G = Some doc →
  (∀ edge, edge ∈ edges doc →
     e_id edge = "edge_" +:+ e_from edge +:+ "_" +:+ e_to edge
     ∧ ∃ nu nv,
         nodes doc !! e_from edge = Some nu
         ∧ nodes doc !! e_to edge = Some nv
         ∧ e_coordinates edge
           = [ {| c_lat := n_lat nu; c_lng := n_lng nu |};
               {| c_lat := n_lat nv; c_lng := n_lng nv |} ])
  ∧ Forall2 (λ edge a, a_id a = e_id edge
                       ∧ a_coordinates a = e_coordinates edge
                       ∧ a_properties a = e_properties edge)
      (edges doc) (walkable_areas doc).
Proof.
  intros Hdoc. split.
  - intros edge Hin.
    destruct (process_edge_projected _ _ _ Hdoc Hin)
      as (e & _ & nu & nv & len & Hu & Hv & _ & ->). simpl.
    split; [done|]. by exists nu, nv.
  - pose proof (process_undirected_Some _ _ Hdoc) as (_ & _ & _ & -> & _).
    apply Forall2_fmap_r, Forall2_same_length_lookup. split; [done|].
    intros i edge edge' H1 H2. by simplify_eq.
Qed.

(** X6. Which type a walkable area gets in the pipeline: the area of a
    raw edge is [road] when the [highway] tag of the raw edge is the
    string [living_street], and [path] in every other case (another
    string, a list of strings, no tag at all). *)
Theorem area_type_of_raw_edge (G : MultiDiGraph) (doc : NetworkDocument) :
  process_network_for_javascript G = Some doc →
  Forall2 (λ e a, a_type a
                  = if eq_str (get e.2 "highway" (VStr "path")) "living_street"
                    then "road" else "path")
    (filter (λ e, kept (un_nodes (to_undirected G)) e.1.1
                  ∧ kept (un_nodes (to_undirected G)) e.1.2)
       (un_edges (to_undirected G)))
    (walkable_areas doc).
Proof.
  intros Hdoc.
  pose proof (process_undirected_Some _ _ Hdoc) as (Hn & _ & _ & -> & _).
  apply Forall2_fmap_r.
  rewrite (list_filter_iff _ (λ e, endpoints_present (nodes doc) e = true)).
  - eapply list.Forall2_impl; [exact (process_edges_projected _ _ Hdoc)|].
    intros e edge (nu & nv & len & _ & _ & _ & ->). simpl.
    apply edge_properties_of_type.
  - intros e.
    by rewrite endpoints_present_true, !(extract_nodes_kept _ _ _ Hn).
Qed.

(** ** The adjacency mapping as a graph *)

Lemma process_graph_lookup (G : MultiDiGraph) (doc : NetworkDocument)
    (k : string) :
  process_network_for_javascript G = Some doc →
  graph doc !! k = (λ _, adjacency_of k (edges doc)) <$> nodes doc !! k.
Proof.
  intros (_ & _ & Hg & _)%process_undirected_Some. unfold build_graph in Hg.
  rewrite (build_graph_lookup _ _ _ k Hg), lookup_fmap.
  by destruct (nodes doc !! k).
Qed.

Lemma elem_of_entries_at (k : string) (edge : Edge) (entry : AdjacencyEntry) :
  entry ∈ entries_at k edge
  ↔ edge_id entry = e_id edge
    ∧ distance entry = default VNone (e_properties edge !! "length")
    ∧ ((e_from edge = k ∧ to entry = e_to edge)
       ∨ (e_to edge = k ∧ to entry = e_from edge)).
Proof.
  unfold entries_at. rewrite elem_of_app. destruct entry as [t d i]. simpl.
  split.
  - intros [H|H]; case_decide; try (by apply elem_of_nil in H);
      apply list_elem_of_singleton in H; injection H as -> -> ->; auto.
  - intros (-> & -> & [[Hk ->]|[Hk ->]]).
    + left. rewrite decide_True by done. by apply list_elem_of_singleton.
    + right. rewrite decide_True by done. by apply list_elem_of_singleton.
Qed.

Lemma process_edge_endpoints (G : MultiDiGraph) (doc : NetworkDocument)
    (edge : Edge) :
  process_network_for_javascript G = Some doc → edge ∈ edges doc →
  is_Some (nodes doc !! e_from edge) ∧ is_Some (nodes doc !! e_to edge)
  ∧ ∃ length, e_properties edge !! "length" = Some (VFloat length).
Proof.
  intros Hdoc Hin.
  destruct (process_edge_projected _ _ _ Hdoc Hin) as (e & _ & Hproj).
  destruct (projected_edge_length _ _ _ Hproj) as (len & _ & Hlen).
  destruct Hproj as (nu & nv & ? & Hu & Hv & _ & ->). simpl in *.
  rewrite Hu, Hv. split; [by eexists|]. split; [by eexists|]. by exists len.
Qed.

(** X7. The adjacency mapping is symmetric: whenever the list of [u]
    holds an entry to [v], the list of [v] holds an entry to [u] with the
    same distance and the same edge id. *)
Theorem adjacency_is_symmetric (G : MultiDiGraph) (doc : NetworkDocument)
    (u v : string) (d : value) (i : string) (lu : list AdjacencyEntry) :
  process_network_for_javascript G = Some doc →
  graph doc !! u = Some lu →
  {| to := v; distance := d; edge_id := i |} ∈ lu →
  ∃ lv, graph doc !! v = Some lv
        ∧ {| to := u; distance := d; edge_id := i |} ∈ lv.
Proof.
  intros Hdoc Hu Hin.
  rewrite (process_graph_lookup _ _ u Hdoc) in Hu.
  destruct (nodes doc !! u) as [nu|]; [|done]. injection Hu as <-.
  apply list_elem_of_bind in Hin as (edge & Hentry & Hedge).
  apply elem_of_entries_at in Hentry as (Hi & Hd & Hends). simpl in *.
  destruct (process_edge_endpoints _ _ _ Hdoc Hedge) as ([nf Hf] & [nt Ht] & _).
  exists (adjacency_of v (edges doc)). split.
  - rewrite (process_graph_lookup _ _ v Hdoc).
    destruct Hends as [[_ ->]|[_ ->]]; [by rewrite Ht|by rewrite Hf].
  - apply list_elem_of_bind. exists edge. split; [|done].
    apply elem_of_entries_at. simpl. split; [done|]. split; [done|].
    destruct Hends as [[<- ->]|[<- ->]]; [by right|by left].
Qed.

(** X8. Every adjacency entry refers to things that exist: its [to] is a
    key of the adjacency mapping and of the node mapping, its [edge_id]
    is the id of an exported edge joining the owner of the list and [to],
    and its [distance] is the [length] of that edge, a float. *)
Theorem adjacency_entries_resolve (G : MultiDiGraph) (doc : NetworkDocument)
    (k : string) (l : list AdjacencyEntry) (entry : AdjacencyEntry) :
  process_network_for_javascript G = Some doc →
  graph doc !! k = Some l → entry ∈ l →
  to entry ∈ dom (graph doc)
  ∧ to entry ∈ dom (nodes doc)
  ∧ ∃ edge length,
      edge ∈ edges doc
      ∧ edge_id entry = e_id edge
      ∧ e_properties edge !! "length" = Some (VFloat length)
      ∧ distance entry = VFloat length
      ∧ ((e_from edge = k ∧ e_to edge = to entry)
         ∨ (e_to edge = k ∧ e_from edge = to entry)).
Proof.
  intros Hdoc Hk Hin.
  rewrite (process_graph_lookup _ _ k Hdoc) in Hk.
  destruct (nodes doc !! k) as [nk|]; [|done]. injection Hk as <-.
  apply list_elem_of_bind in Hin as (edge & Hentry & Hedge).
  apply elem_of_entries_at in Hentry as (Hi & Hd & Hends).
  destruct (process_edge_endpoints _ _ _ Hdoc Hedge)
    as (Hf & Ht & len & Hlen).
  assert (Hto : is_Some (nodes doc !! to entry))
    by (destruct Hends as [[_ ->]|[_ ->]]; done).
  split; [|split].
  - rewrite elem_of_dom, (process_graph_lookup _ _ _ Hdoc).
    by apply fmap_is_Some.
  - by rewrite elem_of_dom.
  - exists edge, len. rewrite Hlen in Hd. simpl in Hd.
    repeat split; try done.
    destruct Hends as [[? ->]|[? ->]]; [by left|by right].
Qed.

Lemma length_entries_at (k : string) (edge : Edge) :
  length (entries_at k edge)
  = ((if decide (e_from edge = k) then 1 else 0)
     + (if decide (e_to edge = k) then 1 else 0))%nat.
Proof.
  unfold entries_at. rewrite length_app. by repeat case_decide.
Qed.

(** X9. The list of a node has one entry for every exported edge that
    starts at it plus one for every exported edge that ends at it, so a
    self-loop contributes two entries to the same list. *)
Theorem adjacency_degree (G : MultiDiGraph) (doc : NetworkDocument)
    (k : string) (l : list AdjacencyEntry) :
  process_network_for_javascript G = Some doc →
  graph doc !! k = Some l →
  length l
  = (length (filter (λ edge, e_from edge = k) (edges doc))
     + length (filter (λ edge, e_to edge = k) (edges doc)))%nat.
Proof.
  intros Hdoc Hk.
  rewrite (process_graph_lookup _ _ k Hdoc) in Hk.
  destruct (nodes doc !! k) as [nk|]; [|done]. injection Hk as <-.
  clear. induction (edges doc) as [|edge es IH]; [done|].
  rewrite adjacency_of_cons, length_app, length_entries_at, IH.
  rewrite !filter_cons. repeat case_decide; simpl; lia.
Qed.

(** ** The disambiguation loop on its own *)

(** X10. The contract of the [while] loop for any set [edge_seen] and any
    base key, whatever strings they are: the loop ends; the key it leaves
    with is not in [edge_seen]; it is the base key itself when the base
    key is not in [edge_seen]; otherwise it is [base-i] for the least
    [i >= 1] such that [base-i] is not in [edge_seen]. *)
Theorem unique_key_contract (edge_seen : gset string) (base_key : string) :
  ∃ edge_key,
    unique_key edge_seen base_key = Some edge_key
    ∧ (edge_key ∉ edge_seen)
    ∧ (base_key ∉ edge_seen → edge_key = base_key)
    ∧ (base_key ∈ edge_seen →
       ∃ i, 1 ≤ i ∧ edge_key = suffixed base_key i
            ∧ ∀ j, 1 ≤ j < i → suffixed base_key j ∈ edge_seen).
Proof.
  destruct (unique_key_total edge_seen base_key) as (n & Hkey & Hout & Hin).
  exists (decorated base_key n). split; [done|]. split; [done|]. split.
  - intros Hbase. destruct n as [|n]; [done|].
    exfalso. apply Hbase. apply (Hin 0%nat). lia.
  - intros Hbase. destruct n as [|n]; [done|].
    exists (Z.of_nat (S n)). split; [lia|]. split; [done|].
    intros j Hj. replace j with (Z.of_nat (S (Z.to_nat j - 1))) by lia.
    apply (Hin (S (Z.to_nat j - 1))). lia.
Qed.

(** ** The Graphology document *)

Lemma occurrences_not_in (t : Z * Z * Z)
    (prev : list (node_id * node_id * Z * Tags)) :
  t ∉ triple_of <$> prev → occurrences t prev = 0%nat.
Proof.
  intros Hnot. unfold occurrences.
  induction prev as [|e prev IH]; [done|].
  rewrite filter_cons. rewrite fmap_cons, not_elem_of_cons in Hnot.
  destruct Hnot as [Hne Hnot]. rewrite decide_False by congruence. by apply IH.
Qed.

Lemma expected_keys_distinct (prev es : list (node_id * node_id * Z * Tags)) :
  NoDup (triple_of <$> (prev ++ es)) →
  expected_keys prev es = (λ e, base_of (triple_of e)) <$> es.
Proof.
  revert prev. induction es as [|e es IH]; intros prev Hnd; [done|].
  simpl. f_equal.
  - rewrite occurrences_not_in; [done|].
    rewrite fmap_app, fmap_cons in Hnd.
    apply list.NoDup_app in Hnd as (_ & Hdisj & _). intros Hin.
    apply (Hdisj _ Hin). apply elem_of_cons. by left.
  - apply IH. by rewrite <- app_assoc.
Qed.

(** X11. On the edges of a [MultiDiGraph], whose (source, target, key)
    triples are pairwise distinct, the disambiguation never appends a
    suffix: the key of every exported edge is exactly
    ["{source}-{target}-{key}"]. *)
Theorem distinct_triples_keep_base_keys (G : MultiDiGraph)
    (data : GraphologyData) :
  NoDup (triple_of <$> di_edges G) →
  to_graphology_json G = Some data →
  ge_key <$> g_edges data
  = (λ e, base_key_of e.1.1.1 e.1.1.2 e.1.2) <$> di_edges G.
Proof.
  intros Hnd Hdata. apply to_graphology_json_edges in Hdata.
  rewrite (graphology_edges_keys _ _ _ _ seen_after_nil Hdata).
  by apply expected_keys_distinct.
Qed.

Lemma to_graphology_json_nodes (G : MultiDiGraph) (data : GraphologyData) :
  to_graphology_json G = Some data →
  Forall2 (λ nd gn, graphology_node nd = Some gn) (di_nodes G) (g_nodes data).
Proof.
  unfold to_graphology_json. intros H.
  destruct (mapM graphology_node (di_nodes G)) as [ns|] eqn:Hns;
    [simpl in H|done].
  destruct (graphology_edges ∅ (di_edges G)) as [es|]; [simpl in H|done].
  injection H as <-. simpl. by apply mapM_Some.
Qed.

Lemma to_graphology_json_node_keys (G : MultiDiGraph)
    (data : GraphologyData) :
  to_graphology_json G = Some data →
  gn_key <$> g_nodes data = str <$> (di_nodes G).*1.
Proof.
  intros H. apply to_graphology_json_nodes in H.
  induction H as [|[n attrs] gn l k Hgn _ IH]; [done|].
  rewrite !fmap_cons, IH. f_equal. unfold graphology_node in Hgn.
  simpl in Hgn. destruct (node_attrs attrs); [simpl in Hgn|done].
  by injection Hgn as <-.
Qed.

(** X12. The Graphology document keeps the graph: there is one node per
    raw node, keyed [str(node)], and one edge per raw edge, in the same
    order, with [source = str(u)] and [target = str(v)]; distinct node
    ids give distinct node keys; and when every raw edge joins nodes of
    the graph, the source and the target of every exported edge are keys
    of exported nodes. *)
Theorem graphology_references (G : MultiDiGraph) (data : GraphologyData) :
  to_graphology_json G = Some data →
  gn_key <$> g_nodes data = str <$> (di_nodes G).*1
  ∧ Forall2 (λ e ge, ge_source ge = str e.1.1.1 ∧ ge_target ge = str e.1.1.2)
      (di_edges G) (g_edges data)
  ∧ (NoDup (di_nodes G).*1 → NoDup (gn_key <$> g_nodes data))
  ∧ ((∀ e, e ∈ di_edges G →
        e.1.1.1 ∈ (di_nodes G).*1 ∧ e.1.1.2 ∈ (di_nodes G).*1) →
     ∀ ge, ge ∈ g_edges data →
       ge_source ge ∈ gn_key <$> g_nodes data
       ∧ ge_target ge ∈ gn_key <$> g_nodes data).
Proof.
  intros Hdata.
  pose proof (to_graphology_json_node_keys _ _ Hdata) as Hkeys.
  pose proof (graphology_edges_attrs _ _ _
                (to_graphology_json_edges _ _ Hdata)) as Hedges.
  split; [done|]. split; [|split].
  - eapply list.Forall2_impl; [exact Hedges|]. by intros e ge (? & ? & _).
  - intros Hnd. rewrite Hkeys. apply NoDup_fmap_2; [|done].
    intros a b. apply str_inj.
  - intros Hclosed ge Hge.
    destruct (Forall2_elem_of_r _ _ _ _ Hedges Hge) as (e & He & -> & -> & _).
    destruct (Hclosed e He) as [Hu Hv]. rewrite Hkeys.
    split; apply list_elem_of_fmap; eauto.
Qed.

Lemma node_attrs_is_Some (attrs : Tags) :
  is_Some (node_attrs attrs) ↔ coords_castable attrs.
Proof.
  unfold coords_castable. split.
  - intros [na (y & x & lat & lng & Hy & Hx & Hlat & Hlng & _)%node_attrs_Some].
    exists y, x. rewrite Hlat, Hlng. repeat split; try done; by eexists.
  - intros (y & x & Hy & Hx & [lat Hlat] & [lng Hlng]).
    unfold node_attrs. rewrite Hy. simpl. rewrite Hlat. simpl.
    rewrite Hx. simpl. rewrite Hlng. by eexists.
Qed.

Lemma edge_attrs_is_Some (attrs : Tags) :
  is_Some (edge_attrs attrs) ↔ length_castable attrs.
Proof.
  unfold edge_attrs, length_castable.
  destruct (float (get attrs "length" (VInt 0))); simpl.
  - split; intros _; by eexists.
  - split; by intros [? [=]].
Qed.

(** X13. [to_graphology_json] returns a document if and only if every raw
    node has a [y] and an [x] tag that can be cast to [float] and the
    [length] tag (or the default 0) of every raw edge can be cast: a node
    without coordinates makes it raise (it is not skipped), and the key
    loop never does. *)
Theorem graphology_raises_only_on_nodes_and_casts (G : MultiDiGraph) :
  is_Some (to_graphology_json G)
  ↔ Forall (λ nd, coords_castable nd.2) (di_nodes G)
    ∧ Forall (λ e, length_castable e.2) (di_edges G).
Proof.
  split.
  - intros [data Hdata]. split.
    + pose proof (to_graphology_json_nodes _ _ Hdata) as Hn.
      apply list.Forall_forall. intros nd Hin.
      apply list_elem_of_lookup in Hin as [i Hi].
      destruct (Forall2_lookup_l _ _ _ _ _ Hn Hi) as (gn & _ & Hgn).
      apply node_attrs_is_Some. unfold graphology_node in Hgn.
      destruct (node_attrs nd.2); [by eexists|done].
    + pose proof (graphology_edges_attrs _ _ _
                    (to_graphology_json_edges _ _ Hdata)) as He.
      apply list.Forall_forall. intros e Hin.
      apply list_elem_of_lookup in Hin as [i Hi].
      destruct (Forall2_lookup_l _ _ _ _ _ He Hi) as (ge & _ & _ & _ & Hea).
      apply edge_attrs_is_Some. by eexists.
  - intros [Hn He]. apply to_graphology_json_total.
    + eapply list.Forall_impl; [exact Hn|].
      intros nd. apply node_attrs_is_Some.
    + eapply list.Forall_impl; [exact He|].
      intros e. apply edge_attrs_is_Some.
Qed.

(** ** More on the area classifier *)

(** X14. The classifier reads the keys [highway], [sidewalk] and
    [leisure] and nothing else: two properties bags that agree on these
    three keys get the same label. *)
Theorem classifier_reads_three_keys (p q : Tags) :
  p !! "highway" = q !! "highway" →
  p !! "sidewalk" = q !! "sidewalk" →
  p !! "leisure" = q !! "leisure" →
  determine_area_type p = determine_area_type q.
Proof.
  intros Hh Hs Hl. unfold determine_area_type, get. by rewrite Hh, Hs, Hl.
Qed.

Lemma eq_str_true (v : value) (s : string) :
  eq_str v s = true ↔ v = VStr s.
Proof.
  destruct v; simpl; try (split; [done|by intros [=]]).
  rewrite String.eqb_eq. split; [by intros ->|by intros [= ->]].
Qed.

(** X15. Which bags get which label. [road]: exactly the bags whose
    [highway] is the string [living_street]. [sidewalk]: exactly the bags
    whose [highway] is one of [residential], [primary], [secondary],
    [tertiary] and whose [sidewalk] tag is truthy. [plaza]: exactly the
    bags whose [leisure] is the string [park], whose [highway] is none of
    [footway], [pedestrian], [living_street], and that are not labelled
    [sidewalk]. Every other bag is a [path]. *)
Theorem classifier_labels (p : Tags) :
  (determine_area_type p = "road"
   ↔ p !! "highway" = Some (VStr "living_street"))
  ∧ (determine_area_type p = "sidewalk"
     ↔ in_strs (get p "highway" (VStr ""))
         ["residential"; "primary"; "secondary"; "tertiary"] = true
       ∧ truthy (get p "sidewalk" VNone) = true)
  ∧ (determine_area_type p = "plaza"
     ↔ p !! "leisure" = Some (VStr "park")
       ∧ in_strs (get p "highway" (VStr ""))
           ["footway"; "pedestrian"; "living_street"] = false
       ∧ determine_area_type p ≠ "sidewalk")
  ∧ (determine_area_type p ≠ "road" → determine_area_type p ≠ "sidewalk" →
     determine_area_type p ≠ "plaza" → determine_area_type p = "path").
Proof.
  clear float_of_str to_undirected.
  assert (Hleisure : eq_str (get p "leisure" VNone) "park" = true
                     ↔ p !! "leisure" = Some (VStr "park")).
  { rewrite eq_str_true. unfold get.
    destruct (p !! "leisure"); simpl; [|done].
    split; [by intros ->|by intros [= ->]]. }
  assert (Hhighway : ∀ s, s ≠ EmptyString →
            eq_str (get p "highway" (VStr "")) s = true
            ↔ p !! "highway" = Some (VStr s)).
  { intros s Hs. rewrite eq_str_true. unfold get.
    destruct (p !! "highway"); simpl.
    - split; [by intros ->|by intros [= ->]].
    - split; [intros [= <-]; done|done]. }
  rewrite <- (Hhighway "living_street") by done. rewrite <- Hleisure.
  unfold determine_area_type, in_strs. simpl.
  generalize (get p "highway" (VStr "")) as h.
  generalize (truthy (get p "sidewalk" VNone)) as sw.
  generalize (eq_str (get p "leisure" VNone) "park") as park.
  intros park sw [| | | |s|];
    try (destruct sw, park; simpl; repeat split; intros; try done;
         intuition congruence).
  simpl.
  destruct (String.eqb_spec s "footway") as [->|_];
    [destruct sw, park; simpl; repeat split; intros; try done;
     intuition congruence|].
  destruct (String.eqb_spec s "pedestrian") as [->|_];
    [destruct sw, park; simpl; repeat split; intros; try done;
     intuition congruence|].
  destruct (String.eqb_spec s "living_street") as [->|_];
    [destruct sw, park; simpl; repeat split; intros; try done;
     intuition congruence|].
  destruct (String.eqb_spec s "residential") as [->|_];
    [destruct sw, park; simpl; repeat split; intros; try done;
     intuition congruence|].
  destruct (String.eqb_spec s "primary") as [->|_];
    [destruct sw, park; simpl; repeat split; intros; try done;
     intuition congruence|].
  destruct (String.eqb_spec s "secondary") as [->|_];
    [destruct sw, park; simpl; repeat split; intros; try done;
     intuition congruence|].
  destruct (String.eqb_spec s "tertiary") as [->|_];
    destruct sw, park; simpl; repeat split; intros; try done;
    intuition congruence.
Qed.

(** ** More on the export *)

Lemma write_json_other (flt : faults) (path p : string) (c : payload)
    (fs : gmap string file) :
  p ≠ path → (write_json flt path c fs).1 !! p = fs !! p.
Proof.
  intros Hne. unfold write_json.
  destruct (open_fails flt path); [done|].
  destruct (dump_fails flt path); simpl; by rewrite lookup_insert_ne.
Qed.

Lemma and_then_other (r : gmap string file * option unit)
    (k : gmap string file → gmap string file * option unit)
    (fs : gmap string file) (p : string) :
  r.1 !! p = fs !! p → (∀ fs', (k fs').1 !! p = fs' !! p) →
  (and_then r k).1 !! p = fs !! p.
Proof.
  intros Hr Hk. unfold and_then. destruct r.2; [|done]. by rewrite Hk.
Qed.

(** X16. Whatever fails, [export_network] changes no file but its three
    outputs, and the three output paths are pairwise distinct for every
    output directory. *)
Theorem export_touches_only_its_files (flt : faults) (data : NetworkDocument)
    (output_dir : string) (fs : gmap string file) (p : string) :
  p ≠ document_path output_dir → p ≠ areas_path output_dir →
  p ≠ graph_path output_dir →
  (export_network flt data output_dir fs).1 !! p = fs !! p
  ∧ document_path output_dir ≠ areas_path output_dir
  ∧ document_path output_dir ≠ graph_path output_dir
  ∧ areas_path output_dir ≠ graph_path output_dir.
Proof.
  intros Hd Ha Hg. split; [|apply export_paths_distinct].
  unfold export_network. destruct (makedirs_fails flt); [done|].
  apply and_then_other; [by apply write_json_other|]. intros fs1.
  apply and_then_other; [by apply write_json_other|]. intros fs2.
  by apply write_json_other.
Qed.

Lemma export_network_fault_free (flt : faults) (data : NetworkDocument)
    (output_dir : string) (fs : gmap string file) :
  fault_free flt data output_dir →
  export_network flt data output_dir fs
  = (completed fs (export_plan data output_dir), Some ()).
Proof.
  intros [Hm Hall].
  destruct (Hall (document_path output_dir, JDocument data)) as [Ho1 Hd1];
    [repeat constructor|].
  destruct (Hall (areas_path output_dir, JAreas (walkable_areas data)))
    as [Ho2 Hd2]; [repeat constructor|].
  destruct (Hall (graph_path output_dir, JGraph (graph data))) as [Ho3 Hd3];
    [repeat constructor|].
  simpl in *. unfold export_network, and_then, write_json.
  rewrite Hm, Ho1, Hd1. simpl. rewrite Ho2, Hd2. simpl. by rewrite Ho3, Hd3.
Qed.

Lemma export_network_success (flt : faults) (data : NetworkDocument)
    (output_dir : string) (fs : gmap string file) :
  (export_network flt data output_dir fs).2 = Some ()
  ↔ fault_free flt data output_dir.
Proof.
  split; [|intros H; by rewrite export_network_fault_free].
  unfold export_network, and_then, write_json, fault_free, export_plan.
  destruct (makedirs_fails flt); [done|].
  destruct (open_fails flt (document_path output_dir)) eqn:Ho1; [done|].
  destruct (dump_fails flt (document_path output_dir)) eqn:Hd1; [done|].
  simpl.
  destruct (open_fails flt (areas_path output_dir)) eqn:Ho2; [done|].
  destruct (dump_fails flt (areas_path output_dir)) eqn:Hd2; [done|].
  simpl.
  destruct (open_fails flt (graph_path output_dir)) eqn:Ho3; [done|].
  destruct (dump_fails flt (graph_path output_dir)) eqn:Hd3; [done|].
  intros _. split; [done|]. intros pc Hpc.
  repeat (apply elem_of_cons in Hpc as [->|Hpc]; [done|]).
  by apply elem_of_nil in Hpc.
Qed.

Lemma completed_plan_lookup (data : NetworkDocument) (output_dir : string)
    (fs : gmap string file) :
  completed fs (export_plan data output_dir) !! document_path output_dir
  = Some (Complete (JDocument data))
  ∧ completed fs (export_plan data output_dir) !! areas_path output_dir
    = Some (Complete (JAreas (walkable_areas data)))
  ∧ completed fs (export_plan data output_dir) !! graph_path output_dir
    = Some (Complete (JGraph (graph data))).
Proof.
  destruct (export_paths_distinct output_dir) as (Hda & Hdg & Hag).
  unfold completed, export_plan. simpl. by simplify_map_eq.
Qed.

Lemma steps_ok_nil (flt : faults) : steps_ok flt [].
Proof. intros pc Hpc. by apply elem_of_nil in Hpc. Qed.

Lemma steps_ok_cons (flt : faults) (pc : string * payload)
    (l : list (string * payload)) :
  open_fails flt pc.1 = false → dump_fails flt pc.1 = false →
  steps_ok flt l → steps_ok flt (pc :: l).
Proof.
  intros Ho Hd Hl pc' Hpc. apply elem_of_cons in Hpc as [->|Hpc]; [done|].
  by apply Hl.
Qed.

(** C7 (amended). [export_network] writes the full document, the
    walkable-areas list and the adjacency mapping in this order and stops
    at the first step that raises. When [makedirs] raises, nothing is
    written. When the write number [n] is the first to fail, the run
    raises, the [n] files before it are completely written, the file
    itself is untouched if its [open] failed and partially written if its
    [json.dump] failed, and the files after it are untouched: there is no
    cross-file atomicity. The run succeeds, with all three files
    completely written, exactly when no step raises, and every run that
    raises is one of the two cases above. *)
Theorem export_network_prefix (flt : faults) (data : NetworkDocument)
    (output_dir : string) (fs : gmap string file) :
  let plan := export_plan data output_dir in
  let result := export_network flt data output_dir fs in
  (makedirs_fails flt = true → result = (fs, None))
  ∧ (makedirs_fails flt = false →
     ∀ n pc, plan !! n = Some pc → steps_ok flt (take n plan) →
       open_fails flt pc.1 = true ∨ dump_fails flt pc.1 = true →
       result
       = (if open_fails flt pc.1
          then completed fs (take n plan)
          else <[pc.1 := Partial]> (completed fs (take n plan)),
          None)
       ∧ (∀ j pcj, plan !! j = Some pcj → (j < n)%nat →
            result.1 !! pcj.1 = Some (Complete pcj.2))
       ∧ result.1 !! pc.1
         = (if open_fails flt pc.1 then fs !! pc.1 else Some Partial)
       ∧ (∀ j pcj, plan !! j = Some pcj → (n < j)%nat →
            result.1 !! pcj.1 = fs !! pcj.1))
  ∧ (result.2 = Some () ↔ fault_free flt data output_dir)
  ∧ (result.2 = Some () →
     result = (completed fs plan, Some ())
     ∧ result.1 !! document_path output_dir = Some (Complete (JDocument data))
     ∧ result.1 !! areas_path output_dir
       = Some (Complete (JAreas (walkable_areas data)))
     ∧ result.1 !! graph_path output_dir
       = Some (Complete (JGraph (graph data))))
  ∧ (result.2 = None →
     makedirs_fails flt = true
     ∨ ∃ n pc, plan !! n = Some pc ∧ steps_ok flt (take n plan)
         ∧ (open_fails flt pc.1 = true ∨ dump_fails flt pc.1 = true)).
Proof.
  intros plan result.
  destruct (export_paths_distinct output_dir) as (Hda & Hdg & Hag).
  split; [|split; [|split; [|split]]].
  - intros Hm. subst result. unfold export_network. by rewrite Hm.
  - intros Hm n pc Hn Hok Hfail. subst result plan.
    unfold export_network, and_then, write_json. rewrite Hm.
    unfold export_plan in Hn, Hok.
    destruct n as [|[|[|n]]]; simpl in Hn; [| | |done];
      injection Hn as <-; cbn [fst snd] in *.
    + destruct (open_fails flt (document_path output_dir)) eqn:Ho.
      * cbn [fst snd]. split; [done|]. split; [intros; lia|].
        split; [done|]. done.
      * destruct Hfail as [[=]|Hd]. rewrite Hd. cbn [fst snd].
        split; [done|]. split; [intros; lia|].
        split; [by rewrite lookup_insert_eq|].
        intros [|[|[|j]]] pcj Hj Hlt; simpl in Hj; try lia; try done;
          injection Hj as <-; cbn [fst]; by rewrite lookup_insert_ne.
    + destruct (Hok (document_path output_dir, JDocument data))
        as [Ho1 Hd1]; [apply elem_of_cons; by left|].
      cbn [fst] in Ho1, Hd1. rewrite Ho1, Hd1. cbn [fst snd].
      destruct (open_fails flt (areas_path output_dir)) eqn:Ho.
      * cbn [fst snd]. split; [done|]. split; [|split].
        -- intros [|j] pcj Hj Hlt; [|lia]. injection Hj as <-.
           cbn [fst snd]. by rewrite lookup_insert_eq.
        -- by rewrite lookup_insert_ne.
        -- intros [|[|[|j]]] pcj Hj Hlt; simpl in Hj; try lia; try done;
             injection Hj as <-; cbn [fst]; by rewrite lookup_insert_ne.
      * destruct Hfail as [[=]|Hd]. rewrite Hd. cbn [fst snd].
        split; [done|]. split; [|split].
        -- intros [|j] pcj Hj Hlt; [|lia]. injection Hj as <-.
           cbn [fst snd]. rewrite lookup_insert_ne by done.
           by rewrite lookup_insert_eq.
        -- by rewrite lookup_insert_eq.
        -- intros [|[|[|j]]] pcj Hj Hlt; simpl in Hj; try lia; try done;
             injection Hj as <-; cbn [fst];
             by rewrite !lookup_insert_ne.
    + destruct (Hok (document_path output_dir, JDocument data))
        as [Ho1 Hd1]; [apply elem_of_cons; by left|].
      destruct (Hok (areas_path output_dir, JAreas (walkable_areas data)))
        as [Ho2 Hd2]; [apply elem_of_cons; right; apply elem_of_cons; by left|].
      cbn [fst] in Ho1, Hd1, Ho2, Hd2. rewrite Ho1, Hd1. cbn [fst snd].
      rewrite Ho2, Hd2. cbn [fst snd].
      destruct (open_fails flt (graph_path output_dir)) eqn:Ho.
      * split; [done|]. cbn [fst snd]. split; [|split].
        -- intros [|[|j]] pcj Hj Hlt; [| |lia]; injection Hj as <-;
             cbn [fst snd].
           ++ rewrite lookup_insert_ne by done. by rewrite lookup_insert_eq.
           ++ by rewrite lookup_insert_eq.
        -- by rewrite !lookup_insert_ne.
        -- intros [|[|[|j]]] pcj Hj Hlt; simpl in Hj; try lia; done.
      * destruct Hfail as [[=]|Hd]. rewrite Hd.
        split; [done|]. cbn [fst snd]. split; [|split].
        -- intros [|[|j]] pcj Hj Hlt; [| |lia]; injection Hj as <-;
             cbn [fst snd].
           ++ rewrite !lookup_insert_ne by done. by rewrite lookup_insert_eq.
           ++ rewrite lookup_insert_ne by done. by rewrite lookup_insert_eq.
        -- by rewrite lookup_insert_eq.
        -- intros [|[|[|j]]] pcj Hj Hlt; simpl in Hj; try lia; done.
  - apply export_network_success.
  - intros Hff%export_network_success. subst result plan.
    rewrite export_network_fault_free by done. split; [done|].
    exact (completed_plan_lookup data output_dir fs).
  - intros Hnone. destruct (makedirs_fails flt) eqn:Hm; [by left|right].
    destruct (open_fails flt (document_path output_dir)) eqn:Ho1;
      [|destruct (dump_fails flt (document_path output_dir)) eqn:Hd1].
    1, 2: exists 0%nat, (document_path output_dir, JDocument data);
      split; [done|]; split; [apply steps_ok_nil|]; cbn [fst]; auto.
    destruct (open_fails flt (areas_path output_dir)) eqn:Ho2;
      [|destruct (dump_fails flt (areas_path output_dir)) eqn:Hd2].
    1, 2: exists 1%nat, (areas_path output_dir, JAreas (walkable_areas data));
      split; [done|];
      split; [by apply steps_ok_cons; [..|apply steps_ok_nil]|];
      cbn [fst]; auto.
    destruct (open_fails flt (graph_path output_dir)) eqn:Ho3;
      [|destruct (dump_fails flt (graph_path output_dir)) eqn:Hd3].
    1, 2: exists 2%nat, (graph_path output_dir, JGraph (graph data));
      split; [done|];
      split; [by repeat apply steps_ok_cons; [..|apply steps_ok_nil]|];
      cbn [fst]; auto.
    exfalso. subst result. revert Hnone.
    unfold export_network, and_then, write_json.
    rewrite Hm, Ho1, Hd1. cbn [fst snd]. rewrite Ho2, Hd2. cbn [fst snd].
    by rewrite Ho3, Hd3.
Qed.

(** X17. When no I/O step fails, the export overwrites: the content of
    the three output files after the run does not depend on what the file
    system held before, and running the export a second time changes
    nothing. *)
Theorem export_overwrites (flt : faults) (data : NetworkDocument)
    (output_dir : string) (fs fs' : gmap string file) :
  fault_free flt data output_dir →
  (∀ pc, pc ∈ export_plan data output_dir →
     (export_network flt data output_dir fs).1 !! pc.1
     = (export_network flt data output_dir fs').1 !! pc.1)
  ∧ export_network flt data output_dir
      (export_network flt data output_dir fs).1
    = export_network flt data output_dir fs.
Proof.
  intros Hff. rewrite !export_network_fault_free by done. cbn [fst].
  destruct (export_paths_distinct output_dir) as (Hda & Hdg & Hag).
  split.
  - intros pc Hpc.
    destruct (completed_plan_lookup data output_dir fs) as (H1 & H2 & H3).
    destruct (completed_plan_lookup data output_dir fs') as (H1' & H2' & H3').
    unfold export_plan in Hpc at 1.
    apply elem_of_cons in Hpc as [->|Hpc]; [cbn [fst]; by rewrite H1, H1'|].
    apply elem_of_cons in Hpc as [->|Hpc]; [cbn [fst]; by rewrite H2, H2'|].
    apply elem_of_cons in Hpc as [->|Hpc]; [cbn [fst]; by rewrite H3, H3'|].
    by apply elem_of_nil in Hpc.
  - f_equal. unfold completed, export_plan. simpl.
    apply map_eq. intros k. rewrite !lookup_insert.
    by repeat case_decide.
Qed.

(** ** The entry points *)


(** X19. The Graphology script opens its output file before it converts
    the graph. It changes no other file; it succeeds exactly when the
    download, [makedirs], [open], the conversion and [json.dump] all do,
    and then the file holds the converted document; and when the
    conversion raises after the file was opened, the file is left
    truncated, its previous content gone. *)
Theorem kista_script_outcomes (download : option MultiDiGraph)
    (flt : faults) (output_path : string)
    (fs : gmap string graphology_file) :
  (∀ p, p ≠ output_path →
     (kista_script download flt output_path fs).1 !! p = fs !! p)
  ∧ ((kista_script download flt output_path fs).2 = Some ()
     ↔ ∃ G data, download = Some G
                 ∧ to_graphology_json G = Some data
                 ∧ makedirs_fails flt = false
                 ∧ open_fails flt output_path = false
                 ∧ dump_fails flt output_path = false
                 ∧ (kista_script download flt output_path fs).1
                     !! output_path = Some (Written data))
  ∧ (∀ G, download = Some G → makedirs_fails flt = false →
       open_fails flt output_path = false →
       to_graphology_json G = None →
       kista_script download flt output_path fs
       = (<[output_path := Truncated]> fs, None))
  ∧ ((download = None ∨ makedirs_fails flt = true
      ∨ open_fails flt output_path = true) →
     kista_script download flt output_path fs = (fs, None)).
Proof.
  unfold kista_script. split; [|split; [|split]].
  - intros p Hp. destruct download as [G|]; [|done].
    destruct (makedirs_fails flt); [done|].
    destruct (open_fails flt output_path); [done|].
    destruct (to_graphology_json G); [|simpl; by rewrite lookup_insert_ne].
    destruct (dump_fails flt output_path); simpl; by rewrite lookup_insert_ne.
  - destruct download as [G|]; [|split; [done|by intros (? & ? & [=] & _)]].
    destruct (makedirs_fails flt);
      [split; [done|by intros (? & ? & _ & _ & [=] & _)]|].
    destruct (open_fails flt output_path);
      [split; [done|by intros (? & ? & _ & _ & _ & [=] & _)]|].
    destruct (to_graphology_json G) as [data|] eqn:Hdata;
      [|split; [done|intros (? & ? & [= <-] & ? & _); congruence]].
    destruct (dump_fails flt output_path);
      [split; [done|by intros (? & ? & _ & _ & _ & _ & [=] & _)]|].
    simpl. split; [|done]. intros _. exists G, data.
    by rewrite lookup_insert_eq.
  - intros G -> -> -> ->. done.
  - intros [->|[->|Ho]]; [done|by destruct download|].
    destruct download; [|done]. destruct (makedirs_fails flt); [done|].
    by rewrite Ho.
Qed.

(** ** The JSON round trip *)










































End Scripts.

(** * The properties on the sample inputs *)

Example repeated_edges_keys :
  (λ data, ge_key <$> g_edges data)
    <$> to_graphology_json reject_str repeated_edges
  = Some ["1-2-0"; "1-2-0-1"; "1-2-1"; "1-2-0-2"; "2-1-0"].
Proof. vm_compute. reflexivity. Qed.

Example sample_graph_ids :
  (λ doc, (e_id <$> edges doc, a_type <$> walkable_areas doc,
           node_count (metadata doc), edge_count (metadata doc)))
    <$> process_network_for_javascript reject_str forget_direction sample_graph
  = Some (["edge_1_2"; "edge_1_2"], ["road"; "path"], 3%nat, 2%nat).
Proof. vm_compute. reflexivity. Qed.

Lemma disambiguated_keys_witness :
  Forall (λ nd, is_Some (node_attrs reject_str nd.2)) (di_nodes repeated_edges)
  ∧ Forall (λ e, is_Some (edge_attrs reject_str e.2)) (di_edges repeated_edges)
  ∧ ∃ data,
      to_graphology_json reject_str repeated_edges = Some data
      ∧ NoDup (ge_key <$> g_edges data)
      ∧ length (g_edges data) = length (di_edges repeated_edges)
      ∧ ∀ j e, di_edges repeated_edges !! j = Some e →
          (ge_key <$> g_edges data) !! j
          = Some (decorated (base_key_of e.1.1.1 e.1.1.2 e.1.2)
                    (occurrences (triple_of e)
                       (take j (di_edges repeated_edges)))).
Proof.
  assert (Hn : Forall (λ nd, is_Some (node_attrs reject_str nd.2))
                 (di_nodes repeated_edges)).
  { repeat constructor; eexists; vm_compute; reflexivity. }
  assert (He : Forall (λ e, is_Some (edge_attrs reject_str e.2))
                 (di_edges repeated_edges)).
  { repeat constructor; eexists; vm_compute; reflexivity. }
  split; [exact Hn|]. split; [exact He|].
  exact (disambiguated_keys reject_str repeated_edges Hn He).
Defined.

Lemma adjacency_symmetry_witness :
  ∃ doc,
    process_network_for_javascript reject_str forget_direction sample_graph
    = Some doc
    ∧ dom (graph doc) = dom (nodes doc)
    ∧ (∀ k, k ∈ dom (nodes doc) →
         graph doc !! k = Some (adjacency_of k (edges doc)))
    ∧ (∀ edge, edge ∈ edges doc →
         ∃ d lu lv,
           e_properties edge !! "length" = Some d
           ∧ graph doc !! e_from edge = Some lu
           ∧ graph doc !! e_to edge = Some lv
           ∧ {| to := e_to edge; distance := d; edge_id := e_id edge |} ∈ lu
           ∧ {| to := e_from edge; distance := d; edge_id := e_id edge |} ∈ lv)
    ∧ entry_count (graph doc) = (2 * length (edges doc))%nat
    ∧ (∀ k, k ∈ dom (nodes doc) →
         (∀ edge, edge ∈ edges doc → e_from edge ≠ k ∧ e_to edge ≠ k) →
         graph doc !! k = Some []).
Proof.
  eexists. split; [vm_compute; reflexivity|].
  apply (adjacency_symmetry reject_str forget_direction sample_graph).
  vm_compute. reflexivity.
Defined.

Lemma endpoint_closure_witness :
  ∃ doc,
    process_network_for_javascript reject_str forget_direction sample_graph
    = Some doc
    ∧ (∀ edge, edge ∈ edges doc →
         e_from edge ∈ dom (nodes doc) ∧ e_to edge ∈ dom (nodes doc))
    ∧ Forall2 (λ e edge, e_from edge = str e.1.1 ∧ e_to edge = str e.1.2)
        (filter
           (λ e, str e.1.1 ∈ dom (nodes doc) ∧ str e.1.2 ∈ dom (nodes doc))
           (un_edges (forget_direction sample_graph)))
        (edges doc)
    ∧ (NoDup (un_nodes (forget_direction sample_graph)).*1 →
       ∀ n data, (n, data) ∈ un_nodes (forget_direction sample_graph) →
         has_coords data = false →
         (str n ∉ dom (nodes doc))
         ∧ ∀ edge, edge ∈ edges doc →
             e_from edge ≠ str n ∧ e_to edge ≠ str n).
Proof.
  eexists. split; [vm_compute; reflexivity|].
  apply (endpoint_closure reject_str forget_direction sample_graph).
  vm_compute. reflexivity.
Defined.

Lemma walkable_area_types_witness :
  ∃ doc,
    process_network_for_javascript reject_str forget_direction sample_graph
    = Some doc
    ∧ ∀ a, a ∈ walkable_areas doc →
        dom (a_properties a)
        = {[ "highway"; "name"; "length"; "width"; "surface"; "lit"; "foot" ]}
        ∧ a_properties a !! "sidewalk" = None
        ∧ a_properties a !! "leisure" = None
        ∧ (a_type a = "path" ∨ a_type a = "road").
Proof.
  eexists. split; [vm_compute; reflexivity|].
  apply (walkable_area_types reject_str forget_direction sample_graph).
  vm_compute. reflexivity.
Defined.

Lemma empty_graph_document_witness :
  forget_direction {| di_nodes := []; di_edges := [] |}
  = {| un_nodes := []; un_edges := [] |}
  ∧ process_network_for_javascript reject_str forget_direction
      {| di_nodes := []; di_edges := [] |}
    = Some {| metadata :=
                {| area := "Kista, Stockholm";
                   bounds := kista_bounds;
                   node_count := 0;
                   edge_count := 0;
                   generated_at := "2024-01-01T00:00:00Z" |};
              nodes := ∅;
              edges := [];
              walkable_areas := [];
              graph := ∅ |}.
Proof.
  split; [reflexivity|].
  apply (empty_graph_document reject_str forget_direction). reflexivity.
Defined.

(** C1, as stated, fails in undirected-simple mode: the two parallel
    streets between the nodes 1 and 2 of [sample_graph] are both exported
    under the id [edge_1_2]. *)
Lemma undirected_ids_not_unique :
  ∃ doc,
    process_network_for_javascript reject_str forget_direction sample_graph
    = Some doc
    ∧ e_id <$> edges doc = ["edge_1_2"; "edge_1_2"]
    ∧ ¬ NoDup (e_id <$> edges doc).
Proof.
  eexists. split; [vm_compute; reflexivity|]. split; [reflexivity|].
  intros Hnd. apply list.NoDup_cons in Hnd as [Hnotin _].
  apply Hnotin, elem_of_cons. by left.
Qed.

Lemma edge_identifiers_witness :
  (∃ data,
     to_graphology_json reject_str repeated_edges = Some data
     ∧ NoDup (ge_key <$> g_edges data))
  ∧ (∃ doc,
       process_network_for_javascript reject_str forget_direction sample_graph
       = Some doc
       ∧ (∀ e1 e2, e1 ∈ edges doc → e2 ∈ edges doc →
            e_id e1 = e_id e2 ↔ e_from e1 = e_from e2 ∧ e_to e1 = e_to e2)
       ∧ (NoDup (e_id <$> edges doc)
          ↔ NoDup ((λ e, (e_from e, e_to e)) <$> edges doc))).
Proof.
  split.
  - eexists. split; [vm_compute; reflexivity|].
    apply (edge_identifiers reject_str forget_direction repeated_edges).
    vm_compute. reflexivity.
  - eexists. split; [vm_compute; reflexivity|].
    apply (edge_identifiers reject_str forget_direction sample_graph).
    vm_compute. reflexivity.
Defined.

(** C6, as stated, fails on [name] in undirected-simple mode: the second
    street of [sample_graph] has no [name] tag and is exported with the
    name [""], not with null. *)
Lemma edge_name_default_not_null :
  ∃ doc data edge,
    process_network_for_javascript reject_str forget_direction sample_graph
    = Some doc
    ∧ un_edges (forget_direction sample_graph) !! 1%nat = Some (1, 2, data)
    ∧ data !! "name" = None
    ∧ edges doc !! 1%nat = Some edge
    ∧ e_properties edge !! "name" = Some (VStr "")
    ∧ e_properties edge !! "name" ≠ Some VNone.
Proof.
  do 3 eexists. split; [vm_compute; reflexivity|].
  split; [reflexivity|]. split; [reflexivity|]. split; [reflexivity|].
  split; [vm_compute; reflexivity|]. vm_compute. discriminate.
Qed.

Lemma attribute_projection_witness :
  (∃ data,
     to_graphology_json reject_str sample_graph_with_coords = Some data
     ∧ Forall2
         (λ nd gn,
            gn_key gn = str nd.1
            ∧ ∃ y x lat lng,
                nd.2 !! "y" = Some y ∧ nd.2 !! "x" = Some x
                ∧ float reject_str y = Some lat
                ∧ float reject_str x = Some lng
                ∧ gn_attributes gn
                  = {[ "lat" := VFloat lat;
                       "lng" := VFloat lng;
                       "highway" :=
                         default (VStr "intersection") (nd.2 !! "highway");
                       "name" := default (VStr "") (nd.2 !! "name") ]})
         (di_nodes sample_graph_with_coords) (g_nodes data)
     ∧ Forall2
         (λ e ge,
            ∃ length,
              float reject_str (default (VInt 0) (e.2 !! "length"))
              = Some length
              ∧ ge_attributes ge
                = {[ "highway" := default (VStr "path") (e.2 !! "highway");
                     "length" := VFloat length;
                     "surface" := default (VStr "") (e.2 !! "surface");
                     "foot" := default (VStr "yes") (e.2 !! "foot") ]})
         (di_edges sample_graph_with_coords) (g_edges data))
  ∧ (∃ doc,
       process_network_for_javascript reject_str forget_direction sample_graph
       = Some doc
       ∧ (∀ k node, nodes doc !! k = Some node →
            ∃ n data y x,
              (n, data) ∈ un_nodes (forget_direction sample_graph)
              ∧ k = str n
              ∧ data !! "y" = Some y ∧ data !! "x" = Some x
              ∧ float reject_str y = Some (n_lat node)
              ∧ float reject_str x = Some (n_lng node)
              ∧ n_properties node !! "highway"
                = Some (default (VStr "intersection") (data !! "highway"))
              ∧ n_properties node !! "name"
                = Some (default (VStr "") (data !! "name")))
       ∧ (NoDup (un_nodes (forget_direction sample_graph)).*1 →
          ∀ n data y x,
            (n, data) ∈ un_nodes (forget_direction sample_graph) →
            data !! "y" = Some y → data !! "x" = Some x →
            ∃ node,
              nodes doc !! str n = Some node
              ∧ float reject_str y = Some (n_lat node) ∧ float reject_str x = Some (n_lng node)
              ∧ n_properties node !! "highway"
                = Some (default (VStr "intersection") (data !! "highway"))
              ∧ n_properties node !! "name"
                = Some (default (VStr "") (data !! "name")))
       ∧ Forall2
           (λ e edge,
              ∃ length,
                float reject_str (default (VInt 0) (e.2 !! "length"))
                = Some length
                ∧ e_properties edge
                  = {[ "highway" := default (VStr "path") (e.2 !! "highway");
                       "name" := default (VStr "") (e.2 !! "name");
                       "length" := VFloat length;
                       "width" := default VNone (e.2 !! "width");
                       "surface" := default VNone (e.2 !! "surface");
                       "lit" := default VNone (e.2 !! "lit");
                       "foot" := default (VStr "yes") (e.2 !! "foot") ]})
           (filter (λ e, endpoints_present (nodes doc) e = true)
              (un_edges (forget_direction sample_graph)))
           (edges doc)).
Proof.
  split.
  - eexists. split; [vm_compute; reflexivity|].
    apply (attribute_projection reject_str forget_direction
             sample_graph_with_coords).
    vm_compute. reflexivity.
  - eexists. split; [vm_compute; reflexivity|].
    apply (attribute_projection reject_str forget_direction sample_graph).
    vm_compute. reflexivity.
Defined.

(** C7, as stated, fails: when the second [open] raises, the full
    document has been written and the other two files have not. *)
Lemma export_leaves_partial_output :
  (export_network areas_unwritable empty_document "out" ∅).2 = None
  ∧ (export_network areas_unwritable empty_document "out" ∅).1
      !! document_path "out"
    = Some (Complete (JDocument empty_document))
  ∧ (export_network areas_unwritable empty_document "out" ∅).1
      !! areas_path "out" = None
  ∧ (export_network areas_unwritable empty_document "out" ∅).1
      !! graph_path "out" = None.
Proof. repeat split; vm_compute; reflexivity. Qed.

Lemma export_network_prefix_witness :
  makedirs_fails areas_unwritable = false
  ∧ export_plan empty_document "out" !! 1%nat
    = Some (areas_path "out", JAreas (walkable_areas empty_document))
  ∧ steps_ok areas_unwritable (take 1 (export_plan empty_document "out"))
  ∧ open_fails areas_unwritable (areas_path "out") = true
  ∧ export_network areas_unwritable empty_document "out" ∅
    = (completed ∅ (take 1 (export_plan empty_document "out")), None)
  ∧ (∀ j pcj, export_plan empty_document "out" !! j = Some pcj → (j < 1)%nat →
       (export_network areas_unwritable empty_document "out" ∅).1 !! pcj.1
       = Some (Complete pcj.2))
  ∧ (export_network areas_unwritable empty_document "out" ∅).1
      !! areas_path "out" = None
  ∧ (∀ j pcj, export_plan empty_document "out" !! j = Some pcj → (1 < j)%nat →
       (export_network areas_unwritable empty_document "out" ∅).1 !! pcj.1
       = (∅ : gmap string file) !! pcj.1).
Proof.
  assert (Hok : steps_ok areas_unwritable
                  (take 1 (export_plan empty_document "out"))).
  { intros pc Hpc. simpl in Hpc.
    apply elem_of_cons in Hpc as [->|Hpc]; [split; reflexivity|].
    by apply elem_of_nil in Hpc. }
  split; [reflexivity|]. split; [reflexivity|]. split; [exact Hok|].
  split; [reflexivity|].
  destruct (export_network_prefix areas_unwritable empty_document "out" ∅)
    as (_ & Hfirst & _).
  exact (Hfirst eq_refl 1%nat
           (areas_path "out", JAreas (walkable_areas empty_document))
           eq_refl Hok (or_introl eq_refl)).
Defined.



(** ** The further properties on the sample inputs *)

Lemma metadata_counts_witness :
  NoDup (un_nodes (forget_direction sample_graph)).*1
  ∧ ∃ doc,
      process_network_for_javascript reject_str forget_direction sample_graph
      = Some doc
      ∧ node_count (metadata doc)
        = length (filter (λ nd, has_coords nd.2 = true)
                    (un_nodes (forget_direction sample_graph)))
      ∧ edge_count (metadata doc)
        = length
            (filter (λ e, kept (un_nodes (forget_direction sample_graph)) e.1.1
                          ∧ kept (un_nodes (forget_direction sample_graph))
                              e.1.2)
               (un_edges (forget_direction sample_graph)))
      ∧ length (walkable_areas doc) = edge_count (metadata doc)
      ∧ size (graph doc) = node_count (metadata doc).
Proof.
  assert (Hnd : NoDup (un_nodes (forget_direction sample_graph)).*1)
    by (vm_compute; repeat constructor; set_solver).
  split; [exact Hnd|]. eexists. split; [vm_compute; reflexivity|].
  apply (metadata_counts reject_str forget_direction sample_graph);
    [exact Hnd|vm_compute; reflexivity].
Defined.

Lemma no_coordinates_empty_document_witness :
  (∀ nd, nd ∈ un_nodes (forget_direction uncharted_graph) →
     has_coords nd.2 = false)
  ∧ process_network_for_javascript reject_str forget_direction uncharted_graph
    = Some {| metadata :=
                {| area := "Kista, Stockholm";
                   bounds := kista_bounds;
                   node_count := 0;
                   edge_count := 0;
                   generated_at := "2024-01-01T00:00:00Z" |};
              nodes := ∅;
              edges := [];
              walkable_areas := [];
              graph := ∅ |}.
Proof.
  assert (Hno : ∀ nd, nd ∈ un_nodes (forget_direction uncharted_graph) →
                  has_coords nd.2 = false).
  { intros nd Hin. simpl in Hin.
    repeat (apply elem_of_cons in Hin as [->|Hin]; [reflexivity|]).
    by apply elem_of_nil in Hin. }
  split; [exact Hno|].
  exact (no_coordinates_empty_document reject_str forget_direction
           uncharted_graph Hno).
Defined.

Lemma node_records_witness :
  ∃ doc node,
    process_network_for_javascript reject_str forget_direction sample_graph
    = Some doc
    ∧ nodes doc !! "4" = Some node
    ∧ n_id node = "4"
    ∧ dom (n_properties node) = {[ "highway"; "name"; "intersection" ]}
    ∧ ∃ n data,
        (n, data) ∈ un_nodes (forget_direction sample_graph) ∧ "4" = str n
        ∧ n_properties node !! "intersection"
          = Some (default (VBool false) (data !! "intersection")).
Proof.
  do 2 eexists. split; [vm_compute; reflexivity|].
  split; [vm_compute; reflexivity|].
  eapply (node_records reject_str forget_direction sample_graph);
    vm_compute; reflexivity.
Defined.

Lemma edge_records_witness :
  ∃ doc,
    process_network_for_javascript reject_str forget_direction sample_graph
    = Some doc
    ∧ (∀ edge, edge ∈ edges doc →
         e_id edge = "edge_" +:+ e_from edge +:+ "_" +:+ e_to edge
         ∧ ∃ nu nv,
             nodes doc !! e_from edge = Some nu
             ∧ nodes doc !! e_to edge = Some nv
             ∧ e_coordinates edge
               = [ {| c_lat := n_lat nu; c_lng := n_lng nu |};
                   {| c_lat := n_lat nv; c_lng := n_lng nv |} ])
    ∧ Forall2 (λ edge a, a_id a = e_id edge
                         ∧ a_coordinates a = e_coordinates edge
                         ∧ a_properties a = e_properties edge)
        (edges doc) (walkable_areas doc).
Proof.
  eexists. split; [vm_compute; reflexivity|].
  apply (edge_records reject_str forget_direction sample_graph).
  vm_compute. reflexivity.
Defined.

Lemma area_type_of_raw_edge_witness :
  ∃ doc,
    process_network_for_javascript reject_str forget_direction sample_graph
    = Some doc
    ∧ Forall2
        (λ e a, a_type a
                = if eq_str (get e.2 "highway" (VStr "path")) "living_street"
                  then "road" else "path")
        (filter (λ e, kept (un_nodes (forget_direction sample_graph)) e.1.1
                      ∧ kept (un_nodes (forget_direction sample_graph)) e.1.2)
           (un_edges (forget_direction sample_graph)))
        (walkable_areas doc).
Proof.
  eexists. split; [vm_compute; reflexivity|].
  apply (area_type_of_raw_edge reject_str forget_direction sample_graph).
  vm_compute. reflexivity.
Defined.

Lemma adjacency_is_symmetric_witness :
  ∃ doc d lu,
    process_network_for_javascript reject_str forget_direction sample_graph
    = Some doc
    ∧ graph doc !! "1" = Some lu
    ∧ {| to := "2"; distance := d; edge_id := "edge_1_2" |} ∈ lu
    ∧ ∃ lv, graph doc !! "2" = Some lv
            ∧ {| to := "1"; distance := d; edge_id := "edge_1_2" |} ∈ lv.
Proof.
  do 3 eexists. split; [vm_compute; reflexivity|].
  split; [vm_compute; reflexivity|].
  split; [apply elem_of_cons; left; reflexivity|].
  eapply (adjacency_is_symmetric reject_str forget_direction sample_graph).
  - vm_compute. reflexivity.
  - vm_compute. reflexivity.
  - apply elem_of_cons. left. reflexivity.
Defined.

Lemma adjacency_entries_resolve_witness :
  ∃ doc l entry,
    process_network_for_javascript reject_str forget_direction sample_graph
    = Some doc
    ∧ graph doc !! "1" = Some l
    ∧ entry ∈ l
    ∧ to entry ∈ dom (graph doc)
    ∧ to entry ∈ dom (nodes doc)
    ∧ ∃ edge length,
        edge ∈ edges doc
        ∧ edge_id entry = e_id edge
        ∧ e_properties edge !! "length" = Some (VFloat length)
        ∧ distance entry = VFloat length
        ∧ ((e_from edge = "1" ∧ e_to edge = to entry)
           ∨ (e_to edge = "1" ∧ e_from edge = to entry)).
Proof.
  do 3 eexists. split; [vm_compute; reflexivity|].
  split; [vm_compute; reflexivity|].
  split; [apply elem_of_cons; left; reflexivity|].
  eapply (adjacency_entries_resolve reject_str forget_direction sample_graph).
  - vm_compute. reflexivity.
  - vm_compute. reflexivity.
  - apply elem_of_cons. left. reflexivity.
Defined.

Lemma adjacency_degree_witness :
  ∃ doc l,
    process_network_for_javascript reject_str forget_direction sample_graph
    = Some doc
    ∧ graph doc !! "2" = Some l
    ∧ length l
      = (length (filter (λ edge, e_from edge = "2") (edges doc))
         + length (filter (λ edge, e_to edge = "2") (edges doc)))%nat.
Proof.
  do 2 eexists. split; [vm_compute; reflexivity|].
  split; [vm_compute; reflexivity|].
  apply (adjacency_degree reject_str forget_direction sample_graph);
    vm_compute; reflexivity.
Defined.

Lemma distinct_triples_keep_base_keys_witness :
  NoDup (triple_of <$> di_edges sample_graph_with_coords)
  ∧ ∃ data,
      to_graphology_json reject_str sample_graph_with_coords = Some data
      ∧ ge_key <$> g_edges data
        = (λ e, base_key_of e.1.1.1 e.1.1.2 e.1.2)
            <$> di_edges sample_graph_with_coords.
Proof.
  assert (Hnd : NoDup (triple_of <$> di_edges sample_graph_with_coords)).
  { vm_compute. repeat constructor; intros Hin;
      repeat (apply elem_of_cons in Hin as [[=]|Hin]);
      by apply elem_of_nil in Hin. }
  split; [exact Hnd|]. eexists. split; [vm_compute; reflexivity|].
  apply (distinct_triples_keep_base_keys reject_str sample_graph_with_coords);
    [exact Hnd|vm_compute; reflexivity].
Defined.

Example sample_graph_with_coords_keys :
  (λ data, ge_key <$> g_edges data)
    <$> to_graphology_json reject_str sample_graph_with_coords
  = Some ["1-2-0"; "1-2-1"].
Proof. vm_compute. reflexivity. Qed.

Lemma graphology_references_witness :
  ∃ data,
    to_graphology_json reject_str sample_graph_with_coords = Some data
    ∧ gn_key <$> g_nodes data = str <$> (di_nodes sample_graph_with_coords).*1
    ∧ Forall2
        (λ e ge, ge_source ge = str e.1.1.1 ∧ ge_target ge = str e.1.1.2)
        (di_edges sample_graph_with_coords) (g_edges data)
    ∧ (NoDup (di_nodes sample_graph_with_coords).*1 →
       NoDup (gn_key <$> g_nodes data))
    ∧ ((∀ e, e ∈ di_edges sample_graph_with_coords →
          e.1.1.1 ∈ (di_nodes sample_graph_with_coords).*1
          ∧ e.1.1.2 ∈ (di_nodes sample_graph_with_coords).*1) →
       ∀ ge, ge ∈ g_edges data →
         ge_source ge ∈ gn_key <$> g_nodes data
         ∧ ge_target ge ∈ gn_key <$> g_nodes data).
Proof.
  eexists. split; [vm_compute; reflexivity|].
  apply (graphology_references reject_str sample_graph_with_coords).
  vm_compute. reflexivity.
Defined.

Lemma classifier_reads_three_keys_witness :
  ({[ "highway" := VStr "residential"; "sidewalk" := VStr "both";
      "name" := VStr "Kistagången"; "lit" := VStr "yes" ]} : Tags)
    !! "highway"
  = ({[ "highway" := VStr "residential"; "sidewalk" := VStr "both" ]} : Tags)
      !! "highway"
  ∧ determine_area_type
      {[ "highway" := VStr "residential"; "sidewalk" := VStr "both";
         "name" := VStr "Kistagången"; "lit" := VStr "yes" ]}
    = determine_area_type
        {[ "highway" := VStr "residential"; "sidewalk" := VStr "both" ]}.
Proof.
  split; [vm_compute; reflexivity|].
  apply classifier_reads_three_keys; vm_compute; reflexivity.
Defined.

Lemma export_touches_only_its_files_witness :
  "out/README.md" ≠ document_path "out"
  ∧ (export_network areas_unwritable empty_document "out"
       {[ "out/README.md" := Partial ]}).1 !! "out/README.md"
    = ({[ "out/README.md" := Partial ]} : gmap string file) !! "out/README.md"
  ∧ document_path "out" ≠ areas_path "out"
  ∧ document_path "out" ≠ graph_path "out"
  ∧ areas_path "out" ≠ graph_path "out".
Proof.
  split; [vm_compute; discriminate|].
  apply (export_touches_only_its_files areas_unwritable empty_document "out");
    vm_compute; discriminate.
Defined.

Lemma export_overwrites_witness :
  fault_free no_faults empty_document "out"
  ∧ (∀ pc, pc ∈ export_plan empty_document "out" →
       (export_network no_faults empty_document "out" ∅).1 !! pc.1
       = (export_network no_faults empty_document "out"
            {[ "out/walk_graph.json" := Partial ]}).1 !! pc.1)
  ∧ export_network no_faults empty_document "out"
      (export_network no_faults empty_document "out" ∅).1
    = export_network no_faults empty_document "out" ∅.
Proof.
  assert (Hff : fault_free no_faults empty_document "out")
    by (split; [reflexivity|intros pc _; split; reflexivity]).
  split; [exact Hff|].
  exact (export_overwrites no_faults empty_document "out" ∅
           {[ "out/walk_graph.json" := Partial ]} Hff).
Defined.


Lemma kista_script_outcomes_witness :
  to_graphology_json reject_str sample_graph = None
  ∧ kista_script reject_str (Some sample_graph) no_faults
      "/app/src/data/kista_walk_network.graphology.json" previous_output
    = (<["/app/src/data/kista_walk_network.graphology.json" := Truncated]>
         previous_output, None).
Proof.
  split; [vm_compute; reflexivity|].
  destruct (kista_script_outcomes reject_str (Some sample_graph) no_faults
              "/app/src/data/kista_walk_network.graphology.json"
              previous_output) as (_ & _ & Htruncated & _).
  apply (Htruncated sample_graph);
    [reflexivity|reflexivity|reflexivity|vm_compute; reflexivity].
Defined.
